(** * Classroom ledger (src/app.py): a shallow embedding of the [Blockchain]
    class and of the module-level summary and import code.

    Python values stored in the ledger are JSON-like dicts, lists, strings
    and numbers; they are modelled by the inductive [json].  Python numbers
    (the [float] amounts and [time.time()] timestamps) are modelled as [Z]:
    floating-point rounding is not part of this model.  The two library
    functions the code calls for hashing, [hashlib.sha256(..).hexdigest()]
    and [json.dumps(.., sort_keys=True)], are parameters of the development. *)

From Stdlib Require Import String Ascii List ZArith Lia Bool Permutation Sorted.
Import ListNotations.
Set Warnings "-register-all".
Open Scope Z_scope.
Open Scope string_scope.

(** ** Python values *)

Inductive json : Type :=
| JNull : json                          (* None *)
| JBool : bool -> json
| JNum : Z -> json                      (* int, or float of whole value *)
| JStr : string -> json
| JArr : list json -> json              (* list *)
| JObj : list (string * json) -> json.  (* dict, in insertion order *)

(** Option as the error monad: [None] is a raised exception. *)
Definition obind {A B} (m : option A) (k : A -> option B) : option B :=
  match m with Some a => k a | None => None end.
Local Notation "'let*' x := m 'in' k" := (obind m (fun x => k))
  (at level 200, x name, m at level 100, k at level 200).

Fixpoint assoc (k : string) (kvs : list (string * json)) : option json :=
  match kvs with
  | [] => None
  | (k', v) :: rest => if String.eqb k k' then Some v else assoc k rest
  end.

(** [v[k]] with a string key: a dict lookup, [KeyError] when absent,
    [TypeError] on any other value. *)
Definition getitem (v : json) (k : string) : option json :=
  match v with JObj kvs => assoc k kvs | _ => None end.

(** [v.get(k)] on a dict. *)
Definition dict_get (v : json) (k : string) : option json :=
  match v with
  | JObj kvs => Some (match assoc k kvs with Some x => x | None => JNull end)
  | _ => None
  end.

(** [d.update(u)]: existing keys are overwritten in place, new keys appended. *)
Fixpoint dict_set (k : string) (x : json) (kvs : list (string * json))
  : list (string * json) :=
  match kvs with
  | [] => [(k, x)]
  | (k', v) :: rest =>
      if String.eqb k k' then (k', x) :: rest else (k', v) :: dict_set k x rest
  end.

Definition dict_update (kvs upd : list (string * json)) : list (string * json) :=
  fold_left (fun acc kv => dict_set (fst kv) (snd kv) acc) upd kvs.

(** [for x in v]: lists yield their items, dicts their keys, strings their
    characters; other values raise [TypeError]. *)
Definition py_iter (v : json) : option (list json) :=
  match v with
  | JArr l => Some l
  | JObj kvs => Some (map (fun kv => JStr (fst kv)) kvs)
  | JStr s => Some (map (fun c => JStr (String c EmptyString)) (list_ascii_of_string s))
  | _ => None
  end.

(** A value used in arithmetic: numbers, and booleans as 0 / 1. *)
Definition py_num (v : json) : option Z :=
  match v with
  | JNum z => Some z
  | JBool b => Some (if b then 1 else 0)
  | _ => None
  end.

(** Python [==] on these values: numbers and booleans compare by value
    ([True == 1]), lists elementwise, dicts as mappings (key order ignored). *)
Fixpoint py_eq (x y : json) : bool :=
  match x, y with
  | JNull, JNull => true
  | (JNum _ | JBool _), (JNum _ | JBool _) =>
      match py_num x, py_num y with Some a, Some b => Z.eqb a b | _, _ => false end
  | JStr a, JStr b => String.eqb a b
  | JArr l1, JArr l2 =>
      (fix go (l1 l2 : list json) : bool :=
         match l1, l2 with
         | [], [] => true
         | a :: r1, b :: r2 => py_eq a b && go r1 r2
         | _, _ => false
         end) l1 l2
  | JObj k1, JObj k2 =>
      Nat.eqb (length k1) (length k2) &&
      (fix go (k1 : list (string * json)) : bool :=
         match k1 with
         | [] => true
         | (k, v) :: r1 =>
             match assoc k k2 with Some v' => py_eq v v' | None => false end && go r1
         end) k1
  | _, _ => false
  end.

(** Threading an accumulator through a loop body that may raise. *)
Fixpoint fold_opt {A B} (f : A -> B -> option A) (l : list B) (acc : A) : option A :=
  match l with
  | [] => Some acc
  | x :: rest => let* acc' := f acc x in fold_opt f rest acc'
  end.

(** ** Decimal rendering of integers, as in [f'{last_proof}{proof}'] *)

Fixpoint digits_aux (fuel n : nat) (acc : string) : string :=
  match fuel with
  | O => acc
  | S f =>
      let acc' := String (ascii_of_nat (48 + Nat.modulo n 10)) acc in
      if Nat.ltb n 10 then acc' else digits_aux f (Nat.div n 10) acc'
  end.

Definition string_of_nat (n : nat) : string := digits_aux (S n) n EmptyString.

Definition string_of_Z (z : Z) : string :=
  if Z.ltb z 0 then "-" ++ string_of_nat (Z.to_nat (- z)) else string_of_nat (Z.to_nat z).

(** ** The ledger *)

Record Blockchain := mkBlockchain {
  chain : list json;
  current_transactions : list json;
  difficulty : nat
}.

Section Ledger.

(** [hashlib.sha256(s.encode()).hexdigest()] *)
Variable sha256_hexdigest : string -> string.
(** [json.dumps(v, sort_keys=True)] *)
Variable json_dumps : json -> string.

(** [Blockchain.hash] *)
Definition hash (block : json) : string := sha256_hexdigest (json_dumps block).

(** [Blockchain.new_block(proof, previous_hash, note)] at time [ts].
    [previous_hash or self.hash(self.chain[-1])]: an absent or empty
    [previous_hash] hashes the last block, raising on an empty chain. *)
Definition new_block (bc : Blockchain) (proof : Z) (previous_hash : option string)
    (note : string) (ts : Z) : option (Blockchain * json) :=
  let* prev :=
    match previous_hash with
    | Some p => if String.eqb p EmptyString then
                  match rev (chain bc) with b :: _ => Some (hash b) | [] => None end
                else Some p
    | None => match rev (chain bc) with b :: _ => Some (hash b) | [] => None end
    end in
  let block := JObj [("index", JNum (Z.of_nat (length (chain bc)) + 1));
                     ("timestamp", JNum ts);
                     ("transactions", JArr (current_transactions bc));
                     ("proof", JNum proof);
                     ("previous_hash", JStr prev);
                     ("note", JStr note)] in
  Some ({| chain := chain bc ++ [block];
           current_transactions := [];
           difficulty := difficulty bc |}, block).

(** [Blockchain.__init__(difficulty)] at time [ts]. *)
Definition blockchain_init (d : nat) (ts : Z) : option Blockchain :=
  let* r := new_block {| chain := []; current_transactions := []; difficulty := d |}
              100 (Some "1") "Genesis Block" ts in
  Some (fst r).

(** [Blockchain.last_block] *)
Definition last_block (bc : Blockchain) : option json :=
  match rev (chain bc) with b :: _ => Some b | [] => None end.

(** [Blockchain.new_transaction(sender, recipient, amount)] at time [ts]:
    the transaction is appended before the return value is computed, so a
    failure of [self.last_block['index'] + 1] leaves it appended. *)
Definition new_transaction (bc : Blockchain) (sender recipient : json) (amount : Z)
    (ts : Z) : Blockchain * option Z :=
  let tx := JObj [("sender", sender); ("recipient", recipient);
                  ("amount", JNum amount); ("timestamp", JNum ts)] in
  let bc' := {| chain := chain bc;
                current_transactions := current_transactions bc ++ [tx];
                difficulty := difficulty bc |} in
  (bc', match chain bc' with
        | [] => Some 1
        | _ => let* b := last_block bc' in
               let* i := getitem b "index" in
               let* n := py_num i in Some (n + 1)
        end).

(** One iteration of the loops of [compute_balance]. *)
Definition balance_step (address : json) (balance : Z) (tx : json) : option Z :=
  let* r := getitem tx "recipient" in
  let* b1 := if py_eq r address
             then let* a := getitem tx "amount" in
                  let* n := py_num a in Some (balance + n)
             else Some balance in
  let* s := getitem tx "sender" in
  if py_eq s address
  then let* a := getitem tx "amount" in
       let* n := py_num a in Some (b1 - n)
  else Some b1.

(** [Blockchain.compute_balance(address)] *)
Definition compute_balance (bc : Blockchain) (address : json) : option Z :=
  let* b := fold_opt (fun bal block =>
                        let* txs := getitem block "transactions" in
                        let* l := py_iter txs in
                        fold_opt (balance_step address) l bal)
                     (chain bc) 0 in
  fold_opt (balance_step address) (current_transactions bc) b.

(** [Blockchain.valid_proof(last_proof, proof)]:
    [guess_hash[:self.difficulty] == '0' * self.difficulty]. *)
Definition zeros (n : nat) : string := string_of_list_ascii (repeat "0"%char n).

Definition valid_proof (bc : Blockchain) (last_proof : Z) (proof : nat) : bool :=
  let guess_hash := sha256_hexdigest (string_of_Z last_proof ++ string_of_nat proof) in
  String.eqb (substring 0 (difficulty bc) guess_hash) (zeros (difficulty bc)).

(** The [while] loop of [Blockchain.proof_of_work], run for at most [fuel]
    iterations: [None] means the loop is still running. *)
Fixpoint pow_loop (bc : Blockchain) (last_proof : Z) (fuel proof : nat) : option nat :=
  match fuel with
  | O => None
  | S f => if valid_proof bc last_proof proof then Some proof
           else pow_loop bc last_proof f (S proof)
  end.

(** [Blockchain.proof_of_work(last_proof)], starting from [proof = 0]. *)
Definition proof_of_work (bc : Blockchain) (last_proof : Z) (fuel : nat) : option nat :=
  pow_loop bc last_proof fuel 0.

(** [tx.copy()] followed by [tx_copy.update(upd)]: only dicts have both. *)
Definition tx_annotate (tx : json) (upd : list (string * json)) : option json :=
  match tx with JObj kvs => Some (JObj (dict_update kvs upd)) | _ => None end.

(** [Blockchain.all_transactions()] *)
Definition all_transactions (bc : Blockchain) : option (list json) :=
  let* confirmed :=
    fold_opt (fun txs block =>
                let* t := getitem block "transactions" in
                let* l := py_iter t in
                fold_opt (fun txs tx =>
                            let* bi := getitem block "index" in
                            let* bt := getitem block "timestamp" in
                            let* c := tx_annotate tx [("block_index", bi);
                                                      ("block_timestamp", bt);
                                                      ("status", JStr "confirmed")] in
                            Some (txs ++ [c])%list) l txs)
             (chain bc) [] in
  fold_opt (fun txs tx =>
              let* c := tx_annotate tx [("block_index", JNull);
                                        ("block_timestamp", JNull);
                                        ("status", JStr "pending")] in
              Some (txs ++ [c])%list)
           (current_transactions bc) confirmed.

(** [addrs.add(x)] on a Python set, kept as a list without repeats:
    lists and dicts are unhashable. *)
Definition set_add (x : json) (s : list json) : option (list json) :=
  match x with
  | JArr _ | JObj _ => None
  | _ => Some (if existsb (py_eq x) s then s else (s ++ [x])%list)
  end.

(** [extract_addresses(tx_list)]; the order of the returned list follows
    the set's iteration order, which Python leaves unspecified, and is taken
    here as insertion order. *)
Definition extract_addresses (tx_list : list json) : option (list json) :=
  let* addrs := fold_opt (fun addrs tx =>
                            let* s := dict_get tx "sender" in
                            let* a1 := set_add s addrs in
                            let* r := dict_get tx "recipient" in
                            set_add r a1) tx_list [] in
  Some (filter (fun a => match a with JNull => false | _ => true end) addrs).

(** [sum(t['amount'] for t in txs if t[key] == addr)] *)
Definition sum_amounts (txs : list json) (key : string) (addr : json) : option Z :=
  fold_opt (fun acc t =>
              let* v := getitem t key in
              if py_eq v addr
              then let* a := getitem t "amount" in let* n := py_num a in Some (acc + n)
              else Some acc) txs 0.

(** [sum(1 for t in txs if t[key] == addr)] *)
Definition count_matching (txs : list json) (key : string) (addr : json) : option Z :=
  fold_opt (fun acc t =>
              let* v := getitem t key in
              Some (if py_eq v addr then acc + 1 else acc)) txs 0.

Record summary_row := mkRow {
  row_address : json;
  row_balance : Z;
  row_received_total : Z;
  row_sent_total : Z;
  row_tx_count_in : Z;
  row_tx_count_out : Z;
  row_tx_count_total : Z
}.

(** [df.sort_values(by='balance', ascending=False)], as an insertion sort. *)
Fixpoint insert_by_balance (r : summary_row) (rows : list summary_row) : list summary_row :=
  match rows with
  | [] => [r]
  | r' :: rest => if Z.leb (row_balance r') (row_balance r) then r :: rows
                  else r' :: insert_by_balance r rest
  end.

Definition sort_by_balance_desc (rows : list summary_row) : list summary_row :=
  fold_right insert_by_balance [] rows.

(** [address_summary(blockchain)] *)
Definition address_summary (bc : Blockchain) : option (list summary_row) :=
  let* txs := all_transactions bc in
  let* addresses := extract_addresses txs in
  let* rows := fold_opt (fun rows addr =>
                  let* received := sum_amounts txs "recipient" addr in
                  let* sent := sum_amounts txs "sender" addr in
                  let* count_in := count_matching txs "recipient" addr in
                  let* count_out := count_matching txs "sender" addr in
                  let* balance := compute_balance bc addr in
                  Some (rows ++ [mkRow addr balance received sent count_in count_out
                                       (count_in + count_out)])%list) addresses [] in
  match rows with
  | [] => Some []
  | _ => Some (sort_by_balance_desc rows)
  end.

(** [total_in_circulation(blockchain)] *)
Definition total_in_circulation (bc : Blockchain) : option Z :=
  let* df := address_summary bc in
  match df with
  | [] => Some 0
  | _ => Some (fold_right (fun r acc => row_balance r + acc) 0 df)
  end.

(** States reached from [Blockchain(difficulty)] by transaction intake and by
    sealing; sealing is [new_block(proof, note=...)] without a
    [previous_hash], as the mining button calls it. *)
Inductive reachable : Blockchain -> Prop :=
| reach_init d ts bc :
    blockchain_init d ts = Some bc -> reachable bc
| reach_tx bc sender recipient amount ts bc' r :
    reachable bc -> new_transaction bc sender recipient amount ts = (bc', r) ->
    reachable bc'
| reach_seal bc proof note ts bc' block :
    reachable bc -> new_block bc proof None note ts = Some (bc', block) ->
    reachable bc'.

End Ledger.

(** ** The chain import handler (file uploader)

    [json.loads(uploaded.read())] is the argument: [None] when it raises. *)
Inductive upload_outcome := Replaced | ErrNotList | ErrLoad.

Definition upload_chain (bc : Blockchain) (loaded : option json)
  : Blockchain * upload_outcome :=
  match loaded with
  | None => (bc, ErrLoad)
  | Some (JArr l) => ({| chain := l; current_transactions := [];
                         difficulty := difficulty bc |}, Replaced)
  | Some _ => (bc, ErrNotList)
  end.

(** ** The remaining module code *)

(** [total_minted(blockchain)]: [sum(t['amount'] for t in txs if t['sender'] == "0")]. *)
Definition total_minted (bc : Blockchain) : option Z :=
  let* txs := all_transactions bc in sum_amounts txs "sender" (JStr "0").

(** [bc.chain[-6:]]: the last [n] items, or the whole list when it is shorter. *)
Definition last_n (n : nat) (l : list json) : list json := skipn (length l - n) l.

(** [reversed(bc.chain[-6:])]: the blocks the page lists under "Recent Blocks",
    in display order. *)
Definition recent_blocks (bc : Blockchain) : list json := rev (last_n 6 (chain bc)).

(** [t.get(k) == addr] *)
Definition get_eq (t : json) (k : string) (addr : json) : option bool :=
  let* v := dict_get t k in Some (py_eq v addr).

(** [t.get('sender') == addr or t.get('recipient') == addr] *)
Definition involves (addr : json) (t : json) : option bool :=
  let* b := get_eq t "sender" addr in
  if b then Some true else get_eq t "recipient" addr.

(** [[t for t in l if p(t)]] with a test that may raise. *)
Fixpoint filter_opt (p : json -> option bool) (l : list json) : option (list json) :=
  match l with
  | [] => Some []
  | t :: rest =>
      let* b := p t in
      let* r := filter_opt p rest in
      Some (if b then t :: r else r)
  end.

(** [sum(t['amount'] for t in l if t.get(k) == addr)] *)
Definition sum_amounts_get (l : list json) (k : string) (addr : json) : option Z :=
  fold_opt (fun acc t =>
              let* b := get_eq t k addr in
              if b then let* a := getitem t "amount" in let* n := py_num a in Some (acc + n)
              else Some acc) l 0.

(** The "Get Balance & Summary" button, for the address typed in the box:
    the balance, then the total received, the total sent and the number of
    transactions of the quick summary. *)
Definition balance_check (bc : Blockchain) (addr_check : string) : option (Z * Z * Z * nat) :=
  let addr := JStr addr_check in
  let* bal := compute_balance bc addr in
  let* txs := all_transactions bc in
  let* filtered := filter_opt (involves addr) txs in
  let* total_received := sum_amounts_get filtered "recipient" addr in
  let* total_sent := sum_amounts_get filtered "sender" addr in
  Some (bal, total_received, total_sent, length filtered).

(** [float(n)] of an int [n]: rounded to the nearest binary64 value, ties
    to even (every integer up to [2^53] is kept); [OverflowError] when the
    rounded value reaches [2^1024]. *)
Definition float_of_int (z : Z) : option Z :=
  let a := Z.abs z in
  if Z.leb a (2 ^ 53) then Some z else
  let e := Z.log2 a - 52 in
  let q := Z.shiftr a e in
  let r := a - Z.shiftl q e in
  let half := Z.shiftl 1 (e - 1) in
  let q' := if Z.ltb half r || (Z.eqb r half && Z.odd q) then q + 1 else q in
  let m := Z.shiftl q' e in
  if Z.leb (2 ^ 1024) m then None else Some (Z.sgn z * m).

Section App.

Variable sha256_hexdigest : string -> string.
Variable json_dumps : json -> string.
(** [str(v)] of a list or a dict. *)
Variable py_str : json -> string.
(** [json.loads(raw)]: [None] when it raises. *)
Variable json_loads : string -> option json.
(** [float(s)] on a string: [None] when it raises. *)
Variable float_of_string : string -> option Z.

(** [f'{v}'] *)
Definition py_format (v : json) : string :=
  match v with
  | JNull => "None"
  | JBool true => "True"
  | JBool false => "False"
  | JNum z => string_of_Z z
  | JStr s => s
  | JArr _ | JObj _ => py_str v
  end.

(** [valid_proof] and the loop of [proof_of_work] as the mining button runs
    them, on the value [last_block['proof']] whatever its type; on an integer
    they are [valid_proof] and [pow_loop]. *)
Definition valid_proof_value (bc : Blockchain) (last_proof : json) (proof : nat) : bool :=
  let guess_hash := sha256_hexdigest (py_format last_proof ++ string_of_nat proof) in
  String.eqb (substring 0 (difficulty bc) guess_hash) (zeros (difficulty bc)).

Fixpoint pow_loop_value (bc : Blockchain) (last_proof : json) (fuel proof : nat)
  : option nat :=
  match fuel with
  | O => None
  | S f => if valid_proof_value bc last_proof proof then Some proof
           else pow_loop_value bc last_proof f (S proof)
  end.

(** The "Mine Block Now" button of the node [node_id], with the proof
    search run for at most [fuel] iterations ([None]: still running), the
    reward recorded at time [ts1] and the block sealed at time [ts2].  The
    result is the ledger afterwards and the new block when the handler
    completes; an exception leaves the ledger as it stands at that point. *)
Definition mine (bc : Blockchain) (node_id note : string) (fuel : nat) (ts1 ts2 : Z)
  : Blockchain * option json :=
  match last_block bc with
  | None => (bc, None)
  | Some lb =>
      match getitem lb "proof" with
      | None => (bc, None)
      | Some last_proof =>
          match pow_loop_value bc last_proof fuel 0 with
          | None => (bc, None)
          | Some proof =>
              let (bc1, idx) := new_transaction bc (JStr "0") (JStr node_id) 1 ts1 in
              match idx with
              | None => (bc1, None)
              | Some _ =>
                  match new_block sha256_hexdigest json_dumps bc1 (Z.of_nat proof) None note ts2 with
                  | None => (bc1, None)
                  | Some (bc2, blk) => (bc2, Some blk)
                  end
              end
          end
      end
  end.

(** [float(v)] *)
Definition py_float (v : json) : option Z :=
  match v with
  | JNum z => float_of_int z
  | JBool b => Some (if b then 1 else 0)
  | JStr s => float_of_string s
  | _ => None
  end.

(** [c.isspace()] on characters taken as code points below 256. *)
Definition py_isspace (c : ascii) : bool :=
  let n := nat_of_ascii c in
  ((9 <=? n) && (n <=? 13))%nat || ((28 <=? n) && (n <=? 32))%nat ||
  Nat.eqb n 133 || Nat.eqb n 160.

(** [not raw.strip()] *)
Definition strip_empty (s : string) : bool := forallb py_isspace (list_ascii_of_string s).

Inductive raw_outcome := RawEmpty | RawInvalid | RawAdded (idx : Z).

(** The "Add Raw JSON Transaction" button at time [ts]. *)
Definition add_raw_transaction (bc : Blockchain) (raw : string) (ts : Z)
  : Blockchain * raw_outcome :=
  if strip_empty raw then (bc, RawEmpty) else
  match json_loads raw with
  | None => (bc, RawInvalid)
  | Some parsed =>
      match dict_get parsed "sender" with
      | None => (bc, RawInvalid)
      | Some s =>
          match dict_get parsed "recipient" with
          | None => (bc, RawInvalid)
          | Some r =>
              match obind (dict_get parsed "amount") py_float with
              | None => (bc, RawInvalid)
              | Some a =>
                  let (bc', idx) := new_transaction bc s r a ts in
                  (bc', match idx with Some i => RawAdded i | None => RawInvalid end)
              end
          end
      end
  end.

End App.

(** ** The operations of the module: the methods of [Blockchain] and the
    module-level functions. *)
Inductive operation :=
| Op_init | Op_new_block | Op_new_transaction | Op_hash | Op_last_block
| Op_proof_of_work | Op_valid_proof | Op_compute_balance | Op_all_transactions
| Op_extract_addresses | Op_address_summary | Op_total_minted
| Op_total_in_circulation.

Definition operation_name (o : operation) : string :=
  match o with
  | Op_init => "__init__" | Op_new_block => "new_block"
  | Op_new_transaction => "new_transaction" | Op_hash => "hash"
  | Op_last_block => "last_block" | Op_proof_of_work => "proof_of_work"
  | Op_valid_proof => "valid_proof" | Op_compute_balance => "compute_balance"
  | Op_all_transactions => "all_transactions"
  | Op_extract_addresses => "extract_addresses"
  | Op_address_summary => "address_summary" | Op_total_minted => "total_minted"
  | Op_total_in_circulation => "total_in_circulation"
  end.

Definition all_operations : list operation :=
  [Op_init; Op_new_block; Op_new_transaction; Op_hash; Op_last_block;
   Op_proof_of_work; Op_valid_proof; Op_compute_balance; Op_all_transactions;
   Op_extract_addresses; Op_address_summary; Op_total_minted;
   Op_total_in_circulation].

(** ** Predicates stated in the words of the specification *)

(** "the first [d] characters of [h] are all ['0']" *)
Definition leading_zero_chars (d : nat) (h : string) : Prop :=
  (d <= String.length h)%nat /\ forall i, (i < d)%nat -> String.get i h = Some "0"%char.

(** A "block-shaped record": a dict with the five content fields of a block. *)
Definition block_shaped (v : json) : bool :=
  match v with
  | JObj kvs => forallb (fun k => match assoc k kvs with Some _ => true | None => false end)
                  ["index"; "timestamp"; "transactions"; "proof"; "previous_hash"]
  | _ => false
  end.

(** The transactions of a block, and those of the whole ledger: every sealed
    block in chain order, then the pending batch. *)
Definition block_txs (b : json) : list json :=
  match getitem b "transactions" with Some (JArr l) => l | _ => [] end.

Definition ledger_txs (bc : Blockchain) : list json :=
  (concat (map block_txs (chain bc)) ++ current_transactions bc)%list.

(** "the field [k] of [tx] equals the address [a]" *)
Definition field_is (tx : json) (k a : string) : bool :=
  match getitem tx k with Some (JStr s) => String.eqb s a | _ => false end.

Definition amount_of (tx : json) : Z :=
  match getitem tx "amount" with Some (JNum n) => n | _ => 0 end.

(** The balance of [a] as the specification sums it: [+amount] where the
    recipient is [a], [-amount] where the sender is [a]. *)
Fixpoint spec_balance (a : string) (txs : list json) : Z :=
  match txs with
  | [] => 0
  | tx :: rest =>
      (if field_is tx "recipient" a then amount_of tx else 0)
      - (if field_is tx "sender" a then amount_of tx else 0)
      + spec_balance a rest
  end.

(** Ledgers in the shape of the data model: each block's transactions are a
    list of dicts with a sender, a recipient and a numeric amount. *)
Definition wf_tx (tx : json) : bool :=
  match getitem tx "sender", getitem tx "recipient", getitem tx "amount" with
  | Some _, Some _, Some (JNum _) => true
  | _, _, _ => false
  end.

Definition wf_block (b : json) : bool :=
  match getitem b "transactions" with Some (JArr l) => forallb wf_tx l | _ => false end.

Definition wf_ledger (bc : Blockchain) : bool :=
  forallb wf_block (chain bc) && forallb wf_tx (current_transactions bc).

(** The same with string addresses, and blocks carrying the [index] and
    [timestamp] that [all_transactions] reads. *)
Definition wf_tx_str (tx : json) : bool :=
  match getitem tx "sender", getitem tx "recipient", getitem tx "amount" with
  | Some (JStr _), Some (JStr _), Some (JNum _) => true
  | _, _, _ => false
  end.

Definition wf_block_str (b : json) : bool :=
  match getitem b "index", getitem b "timestamp", getitem b "transactions" with
  | Some _, Some _, Some (JArr l) => forallb wf_tx_str l
  | _, _, _ => false
  end.

Definition wf_ledger_str (bc : Blockchain) : bool :=
  forallb wf_block_str (chain bc) && forallb wf_tx_str (current_transactions bc).

(** [spec_validate_links]: the first check of the specification's
    [validate()], [chain[i].previous_hash == hash(chain[i-1])]. *)
Fixpoint spec_validate_links (sha : string -> string) (dumps : json -> string)
    (c : list json) : bool :=
  match c with
  | b1 :: ((b2 :: _) as rest) =>
      match getitem b2 "previous_hash" with
      | Some (JStr p) => String.eqb p (hash sha dumps b1)
      | _ => false
      end && spec_validate_links sha dumps rest
  | _ => true
  end.

(** A batch of [new_transaction] calls, one per (sender, recipient, amount,
    time). *)
Definition submit_all (bc : Blockchain) (subs : list (json * json * Z * Z)) : Blockchain :=
  fold_left (fun b '(s, r, a, ts) => fst (new_transaction b s r a ts)) subs bc.

Definition mk_tx '((s, r, a, ts) : json * json * Z * Z) : json :=
  JObj [("sender", s); ("recipient", r); ("amount", JNum a); ("timestamp", JNum ts)].

(** ** Auxiliary definitions of the proofs *)

(** The shape of every block of a reachable ledger: the six keys that
    [new_block] writes, and no other. *)
Definition block_of_shape (b : json) : Prop :=
  exists i ts txs p ph n,
    b = JObj [("index", JNum i); ("timestamp", JNum ts); ("transactions", JArr txs);
              ("proof", JNum p); ("previous_hash", JStr ph); ("note", JStr n)].

(** The three fields of a transaction the summaries read. *)
Definition fields (t : json) : option json * option json * option json :=
  (getitem t "sender", getitem t "recipient", getitem t "amount").

Definition sender_str (t : json) : string :=
  match getitem t "sender" with Some (JStr s) => s | _ => EmptyString end.
Definition recipient_str (t : json) : string :=
  match getitem t "recipient" with Some (JStr s) => s | _ => EmptyString end.

(** The address set of [extract_addresses], on string addresses. *)
Definition str_add (x : string) (acc : list string) : list string :=
  if existsb (String.eqb x) acc then acc else (acc ++ [x])%list.

Definition addr_fold (txs : list json) (acc : list string) : list string :=
  fold_left (fun acc t => str_add (recipient_str t) (str_add (sender_str t) acc)) txs acc.



(** Ledgers whose blocks carry [index], [timestamp] and a list of
    transactions, each a dict with a sender, a recipient and a numeric
    amount: the shape [new_block] and [new_transaction] produce. *)
Definition wf_block_full (b : json) : bool :=
  match getitem b "index", getitem b "timestamp", getitem b "transactions" with
  | Some _, Some _, Some (JArr l) => forallb wf_tx l
  | _, _, _ => false
  end.

Definition wf_ledger_full (bc : Blockchain) : bool :=
  forallb wf_block_full (chain bc) && forallb wf_tx (current_transactions bc).

(** The metadata [all_transactions] attaches to a transaction, and the
    metadata each transaction of a ledger should receive: its block's index
    and timestamp and ["confirmed"], or [None], [None] and ["pending"]. *)
Definition tx_meta (t : json) : option json * option json * option json :=
  (getitem t "block_index", getitem t "block_timestamp", getitem t "status").

Definition ledger_meta (bc : Blockchain) : list (option json * option json * option json) :=
  (concat (map (fun b => map (fun _ => (getitem b "index", getitem b "timestamp",
                                        Some (JStr "confirmed"))) (block_txs b)) (chain bc))
   ++ map (fun _ => (Some JNull, Some JNull, Some (JStr "pending"))) (current_transactions bc))%list.

(** The mining reward of the node [node_id], recorded at time [ts]. *)
Definition reward_tx (node_id : string) (ts : Z) : json :=
  JObj [("sender", JStr "0"); ("recipient", JStr node_id); ("amount", JNum 1);
        ("timestamp", JNum ts)].

(** "[t[k] == addr]", false when [t] has no key [k]; and the sum of the
    amounts of the transactions of [l] for which it holds. *)
Definition matches (t : json) (k : string) (addr : json) : bool :=
  match getitem t k with Some v => py_eq v addr | None => false end.

Definition sum_matching (k : string) (addr : json) (l : list json) : Z :=
  fold_right (fun t s => (if matches t k addr then amount_of t else 0) + s) 0 l.

(** "[addr] is the sender or the recipient of [t]" *)
Definition involves_spec (addr : json) (t : json) : bool :=
  matches t "sender" addr || matches t "recipient" addr.

(** A list or a dict: a value Python cannot put in a set. *)
Definition unhashable (v : option json) : bool :=
  match v with Some (JArr _) | Some (JObj _) => true | _ => false end.

(** The sum of the absolute amounts of a list of transactions. Python
    floats hold every whole number up to [2^53] exactly, and the sum or
    difference of two of them is exact when its value stays within
    [2^53]. Every partial sum the code forms (a balance, a total received
    or sent) is bounded by this sum, and a sum of balances by twice it: when
    the amounts are whole numbers and this bound holds, the float
    arithmetic of the program is the exact arithmetic of the model. *)
Definition sum_abs_amounts (l : list json) : Z :=
  fold_right (fun t s => Z.abs (amount_of t) + s) 0 l.

(** ** Concrete ledgers *)

Definition demo_sha (s : string) : string := s.
Definition demo_dumps (j : json) : string := EmptyString.

Definition demo_genesis : Blockchain :=
  match blockchain_init demo_sha demo_dumps 3 0 with
  | Some bc => bc | None => mkBlockchain [] [] 3 end.

(** [new_transaction('A', 'B', 5)] *)
Definition demo_pending : Blockchain :=
  fst (new_transaction demo_genesis (JStr "A") (JStr "B") 5 1).

Definition demo_seal_result : Blockchain * json :=
  match new_block demo_sha demo_dumps demo_pending 7 None EmptyString 2 with
  | Some r => r | None => (demo_pending, JNull) end.

Definition demo_sealed : Blockchain := fst demo_seal_result.

(** The mining reward [new_transaction(sender='0', recipient='B', amount=1)]. *)
Definition demo_minted : Blockchain :=
  fst (new_transaction demo_sealed (JStr "0") (JStr "B") 1 3).


(** A digest function whose output always begins with zeros, so that every
    nonce is valid, and a [str] that renders every value as the empty
    string. *)
Definition demo_zero_sha (s : string) : string := zeros 64.
Definition demo_py_str (v : json) : string := EmptyString.

Definition demo_zero_genesis : Blockchain :=
  match blockchain_init demo_zero_sha demo_dumps 3 0 with
  | Some bc => bc | None => mkBlockchain [] [] 3 end.

(** The raw-JSON intake of [{"sender": ["A"], "recipient": "B", "amount": 2}]. *)
Definition demo_list_sender : Blockchain :=
  fst (new_transaction demo_sealed (JArr [JStr "A"]) (JStr "B") 2 3).

Definition demo_minted_rows : list summary_row :=
  match address_summary demo_minted with Some rows => rows | None => [] end.

(** [json.loads] answering [{"sender": "A", "amount": 2}] and a [float] of
    strings that always raises. *)
Definition demo_loads (raw : string) : option json :=
  Some (JObj [("sender", JStr "A"); ("amount", JNum 2)]).
Definition demo_float (s : string) : option Z := None.

(** ** Proofs *)

Section Proofs.

Variable sha256_hexdigest : string -> string.
Variable json_dumps : json -> string.

Lemma substring_zeros_iff (d : nat) (h : string) :
  substring 0 d h = zeros d <-> leading_zero_chars d h.
Proof.
  revert h; induction d as [|d IH]; intros h; unfold leading_zero_chars.
  - simpl. split; [intros _; split; [lia | intros i Hi; lia] | destruct h; reflexivity].
  - destruct h as [|c h]; simpl.
    + split; [discriminate | intros [Hl _]; simpl in Hl; lia].
    + unfold zeros in *; simpl.
      split.
      * intros Heq. injection Heq as Hc Hrest.
        apply IH in Hrest as [Hl Hg]. split; [lia|].
        intros [|i] Hi; simpl; [now subst | apply Hg; lia].
      * intros [Hl Hg].
        assert (Hc : c = "0"%char) by (specialize (Hg 0%nat ltac:(lia)); simpl in Hg; congruence).
        subst c. f_equal. apply IH. split; [lia|].
        intros i Hi. apply (Hg (S i)). lia.
Qed.

Lemma valid_proof_iff (bc : Blockchain) (lp : Z) (p : nat) :
  valid_proof sha256_hexdigest bc lp p = true <->
  leading_zero_chars (difficulty bc) (sha256_hexdigest (string_of_Z lp ++ string_of_nat p)).
Proof.
  unfold valid_proof. rewrite String.eqb_eq. apply substring_zeros_iff.
Qed.

Lemma pow_loop_spec (bc : Blockchain) (lp : Z) (fuel p0 p : nat) :
  pow_loop sha256_hexdigest bc lp fuel p0 = Some p <->
  (p0 <= p < p0 + fuel)%nat /\ valid_proof sha256_hexdigest bc lp p = true /\
  (forall q, (p0 <= q < p)%nat -> valid_proof sha256_hexdigest bc lp q = false).
Proof.
  revert p0; induction fuel as [|f IH]; intros p0; simpl.
  - split; [discriminate | lia].
  - case_eq (valid_proof sha256_hexdigest bc lp p0); intros Hv.
    + split.
      * intros H; injection H as <-.
        split; [lia|]. split; [exact Hv|]. intros q Hq; lia.
      * intros (Hr & Hp & Hq).
        destruct (Nat.eq_dec p0 p) as [->|Hne]; [reflexivity|].
        rewrite Hq in Hv; [discriminate | lia].
    + rewrite IH. split.
      * intros (Hr & Hp & Hq).
        assert (p0 <> p) by (intros ->; congruence).
        split; [lia|]. split; [exact Hp|].
        intros q Hq'. destruct (Nat.eq_dec p0 q) as [->|]; [exact Hv | apply Hq; lia].
      * intros (Hr & Hp & Hq).
        assert (p0 <> p) by (intros ->; congruence).
        split; [lia|]. split; [exact Hp|].
        intros q Hq'; apply Hq; lia.
Qed.

Lemma pow_loop_finds (bc : Blockchain) (lp : Z) (fuel p0 n : nat) :
  (p0 <= n < p0 + fuel)%nat -> valid_proof sha256_hexdigest bc lp n = true ->
  exists p, pow_loop sha256_hexdigest bc lp fuel p0 = Some p.
Proof.
  revert p0; induction fuel as [|f IH]; intros p0 Hr Hv; simpl; [lia|].
  destruct (valid_proof sha256_hexdigest bc lp p0) eqn:E; [eauto|].
  apply IH; [|exact Hv].
  destruct (Nat.eq_dec p0 n) as [->|]; [congruence | lia].
Qed.

(** C3: [proof_of_work(last_proof)] returns the least nonce [p >= 0] whose
    digest of [f'{last_proof}{p}'] starts with [difficulty] characters ['0']
    (the loop has returned it after [p + 1] iterations and not before), and
    [valid_proof] holds exactly for such nonces. *)
Theorem proof_of_work_least_nonce (bc : Blockchain) (last_proof : Z)
  (Hex : exists n, leading_zero_chars (difficulty bc)
                     (sha256_hexdigest (string_of_Z last_proof ++ string_of_nat n))) :
  exists p,
    leading_zero_chars (difficulty bc)
      (sha256_hexdigest (string_of_Z last_proof ++ string_of_nat p)) /\
    (forall q, (q < p)%nat ->
       ~ leading_zero_chars (difficulty bc)
           (sha256_hexdigest (string_of_Z last_proof ++ string_of_nat q))) /\
    (forall fuel, (p < fuel)%nat ->
       proof_of_work sha256_hexdigest bc last_proof fuel = Some p) /\
    (forall fuel, (fuel <= p)%nat ->
       proof_of_work sha256_hexdigest bc last_proof fuel = None) /\
    (forall q, valid_proof sha256_hexdigest bc last_proof q = true <->
       leading_zero_chars (difficulty bc)
         (sha256_hexdigest (string_of_Z last_proof ++ string_of_nat q))).
Proof.
  destruct Hex as [n Hn]. apply valid_proof_iff in Hn.
  destruct (pow_loop_finds bc last_proof (S n) 0 n ltac:(lia) Hn) as [p Hp].
  apply pow_loop_spec in Hp as (Hr & Hv & Hmin).
  exists p. split; [apply valid_proof_iff; exact Hv|]. split.
  { intros q Hq Hl. apply valid_proof_iff in Hl. rewrite Hmin in Hl; [discriminate | lia]. }
  split.
  { intros fuel Hf. unfold proof_of_work. apply pow_loop_spec.
    split; [lia|]. split; [exact Hv|]. exact Hmin. }
  split.
  { intros fuel Hf. unfold proof_of_work.
    destruct (pow_loop sha256_hexdigest bc last_proof fuel 0) as [p'|] eqn:E; [|reflexivity].
    apply pow_loop_spec in E as (Hr' & Hv' & _).
    rewrite Hmin in Hv'; [discriminate | lia]. }
  intros q. apply valid_proof_iff.
Qed.

(** *** Construction, intake and sealing *)

Lemma submit_all_fields (bc : Blockchain) (subs : list (json * json * Z * Z)) :
  chain (submit_all bc subs) = chain bc /\
  current_transactions (submit_all bc subs) = (current_transactions bc ++ map mk_tx subs)%list /\
  difficulty (submit_all bc subs) = difficulty bc.
Proof.
  revert bc; induction subs as [|[[[s r] a] ts] subs IH]; intros bc; simpl.
  - rewrite app_nil_r. auto.
  - destruct (IH (fst (new_transaction bc s r a ts))) as (H1 & H2 & H3).
    unfold submit_all in *. simpl in *. rewrite H1, H2, H3, <- app_assoc. auto.
Qed.

Lemma rev_cons_app {A} (l r : list A) (b : A) : rev l = b :: r -> l = (rev r ++ [b])%list.
Proof.
  intros H. rewrite <- (rev_involutive l), H. reflexivity.
Qed.

(** Sealing without a [previous_hash] on a non-empty chain. *)
Lemma new_block_none (bc : Blockchain) (proof : Z) (note : string) (ts : Z) (pre : list json) (b : json) :
  chain bc = (pre ++ [b])%list ->
  new_block sha256_hexdigest json_dumps bc proof None note ts =
  Some ({| chain := (chain bc ++ [JObj [("index", JNum (Z.of_nat (length (chain bc)) + 1));
                                        ("timestamp", JNum ts);
                                        ("transactions", JArr (current_transactions bc));
                                        ("proof", JNum proof);
                                        ("previous_hash", JStr (hash sha256_hexdigest json_dumps b));
                                        ("note", JStr note)]])%list;
           current_transactions := [];
           difficulty := difficulty bc |},
        JObj [("index", JNum (Z.of_nat (length (chain bc)) + 1));
              ("timestamp", JNum ts);
              ("transactions", JArr (current_transactions bc));
              ("proof", JNum proof);
              ("previous_hash", JStr (hash sha256_hexdigest json_dumps b));
              ("note", JStr note)]).
Proof.
  intros Hc. unfold new_block. rewrite Hc, rev_app_distr. simpl. reflexivity.
Qed.

Lemma new_block_none_inv (bc bc' : Blockchain) (proof : Z) (note : string) (ts : Z) (blk : json) :
  new_block sha256_hexdigest json_dumps bc proof None note ts = Some (bc', blk) ->
  exists pre b, chain bc = (pre ++ [b])%list /\
    chain bc' = (chain bc ++ [blk])%list /\ current_transactions bc' = [] /\
    blk = JObj [("index", JNum (Z.of_nat (length (chain bc)) + 1));
                ("timestamp", JNum ts);
                ("transactions", JArr (current_transactions bc));
                ("proof", JNum proof);
                ("previous_hash", JStr (hash sha256_hexdigest json_dumps b));
                ("note", JStr note)].
Proof.
  intros H. destruct (rev (chain bc)) as [|b r] eqn:E.
  - unfold new_block in H. rewrite E in H. discriminate.
  - apply rev_cons_app in E. rewrite (new_block_none bc proof note ts (rev r) b E) in H.
    injection H as <- <-. exists (rev r), b. simpl. auto.
Qed.

Lemma reachable_shape (bc : Blockchain) :
  reachable sha256_hexdigest json_dumps bc ->
  chain bc <> [] /\ forall b, In b (chain bc) -> block_of_shape b.
Proof.
  induction 1 as [d ts bc Hi | bc s r a ts bc' res _ IH Ht | bc proof note ts bc' blk _ IH Hs].
  - unfold blockchain_init, new_block in Hi. simpl in Hi. injection Hi as <-. simpl.
    split; [discriminate|]. intros b [<-|[]]. do 6 eexists. reflexivity.
  - unfold new_transaction in Ht. injection Ht as <- _. exact IH.
  - apply new_block_none_inv in Hs as (pre & b & Hc & Hc' & _ & Hblk).
    rewrite Hc'. split; [destruct (chain bc); discriminate|].
    intros x Hx. apply in_app_or in Hx as [Hx|[<-|[]]]; [apply IH; exact Hx|].
    subst blk. do 6 eexists. reflexivity.
Qed.

Lemma reachable_linked (bc : Blockchain) :
  reachable sha256_hexdigest json_dumps bc ->
  forall i prev blk, nth_error (chain bc) i = Some prev ->
    nth_error (chain bc) (S i) = Some blk ->
    getitem blk "previous_hash" = Some (JStr (hash sha256_hexdigest json_dumps prev)).
Proof.
  induction 1 as [d ts bc Hi | bc s r a ts bc' res _ IH Ht | bc proof note ts bc' blk0 _ IH Hs].
  - unfold blockchain_init, new_block in Hi. simpl in Hi. injection Hi as <-. simpl.
    intros i prev blk _ H. destruct i; discriminate.
  - unfold new_transaction in Ht. injection Ht as <- _. exact IH.
  - apply new_block_none_inv in Hs as (pre & b & Hc & Hc' & _ & Hblk).
    rewrite Hc'. intros i prev blk Hp Hb.
    assert (Hlen : (S i <= length (chain bc))%nat).
    { assert (Hn : nth_error (chain bc ++ [blk0])%list (S i) <> None) by congruence.
      apply nth_error_Some in Hn. rewrite length_app in Hn. simpl in Hn. lia. }
    destruct (Nat.eq_dec (S i) (length (chain bc))) as [Heq|Hne].
    + rewrite nth_error_app2 in Hb by lia. rewrite Heq, Nat.sub_diag in Hb.
      injection Hb as <-.
      rewrite nth_error_app1 in Hp by lia. rewrite Hc in Hp, Heq.
      rewrite length_app in Heq. simpl in Heq.
      rewrite nth_error_app2 in Hp by lia.
      replace (i - length pre)%nat with 0%nat in Hp by lia. injection Hp as <-.
      subst blk0. reflexivity.
    + rewrite nth_error_app1 in Hp, Hb by lia. exact (IH i prev blk Hp Hb).
Qed.

Lemma linked_validate_links (c : list json) :
  (forall i prev blk, nth_error c i = Some prev -> nth_error c (S i) = Some blk ->
     getitem blk "previous_hash" = Some (JStr (hash sha256_hexdigest json_dumps prev))) ->
  spec_validate_links sha256_hexdigest json_dumps c = true.
Proof.
  induction c as [|b1 rest IH]; intros H; [reflexivity|].
  destruct rest as [|b2 rest']; [reflexivity|].
  change (match getitem b2 "previous_hash" with
          | Some (JStr p) => String.eqb p (hash sha256_hexdigest json_dumps b1)
          | _ => false end && spec_validate_links sha256_hexdigest json_dumps (b2 :: rest') = true).
  rewrite (H 0%nat b1 b2 eq_refl eq_refl), String.eqb_refl. simpl.
  apply IH. intros i prev blk H1 H2. exact (H (S i) prev blk H1 H2).
Qed.

(** C2: after any batch of [new_transaction] calls, [new_block(proof)] seals
    exactly the pending batch as it stands, in order, empties the pending
    batch, and appends one block to the chain. *)
Theorem new_block_seals_pending (bc : Blockchain) (subs : list (json * json * Z * Z))
    (proof : Z) (note : string) (ts : Z) (Hne : chain bc <> []) :
  current_transactions (submit_all bc subs) = (current_transactions bc ++ map mk_tx subs)%list /\
  exists bc2 blk,
    new_block sha256_hexdigest json_dumps (submit_all bc subs) proof None note ts = Some (bc2, blk) /\
    getitem blk "transactions" = Some (JArr (current_transactions (submit_all bc subs))) /\
    current_transactions bc2 = [] /\
    chain bc2 = (chain (submit_all bc subs) ++ [blk])%list /\
    length (chain bc2) = S (length (chain (submit_all bc subs))).
Proof.
  destruct (submit_all_fields bc subs) as (H1 & H2 & _).
  split; [exact H2|].
  destruct (rev (chain bc)) as [|b r] eqn:E.
  { destruct (chain bc); [congruence|]. simpl in E. destruct (rev l); discriminate. }
  apply rev_cons_app in E. rewrite <- H1 in E.
  rewrite (new_block_none _ proof note ts _ _ E).
  do 2 eexists. split; [reflexivity|]. simpl.
  split; [reflexivity|]. split; [reflexivity|]. split; [reflexivity|].
  rewrite length_app. simpl. lia.
Qed.

(** C4: in every ledger reached by construction, intake and sealing, each
    block after the genesis block has [previous_hash] equal to [hash] (SHA-256
    of the sorted-key JSON dump) of the block before it. *)
Theorem reachable_previous_hash (bc : Blockchain)
    (Hr : reachable sha256_hexdigest json_dumps bc) :
  forall i prev blk, nth_error (chain bc) i = Some prev ->
    nth_error (chain bc) (S i) = Some blk ->
    getitem blk "previous_hash" = Some (JStr (hash sha256_hexdigest json_dumps prev)).
Proof.
  exact (reachable_linked bc Hr).
Qed.

(** C5 (as corrected): blocks carry no [hash] field.  Every block of a
    reachable ledger has exactly the keys [index], [timestamp],
    [transactions], [proof], [previous_hash] and [note]; none is [hash]. *)
Theorem reachable_blocks_have_no_hash (bc : Blockchain)
    (Hr : reachable sha256_hexdigest json_dumps bc) :
  forall b, In b (chain bc) -> block_of_shape b /\ getitem b "hash" = None.
Proof.
  intros b Hb. destruct (reachable_shape bc Hr) as [_ Hs].
  pose proof (Hs b Hb) as Hsh. split; [exact Hsh|].
  destruct Hsh as (i & t & txs & p & ph & n & ->). reflexivity.
Qed.

(** C6 (as corrected): the module has no [validate] operation.  Of the two
    checks the specification gives it, the link check holds on every
    reachable ledger, and the stored-hash check has no field to read. *)
Theorem no_validate_links_hold (bc : Blockchain)
    (Hr : reachable sha256_hexdigest json_dumps bc) :
  (forall o, operation_name o <> "validate") /\
  spec_validate_links sha256_hexdigest json_dumps (chain bc) = true /\
  forallb (fun b => match getitem b "hash" with None => true | Some _ => false end)
    (chain bc) = true.
Proof.
  split; [intros o; destruct o; discriminate|].
  split; [apply linked_validate_links, (reachable_linked bc Hr)|].
  apply forallb_forall. intros b Hb.
  destruct (reachable_shape bc Hr) as [_ Hs].
  destruct (Hs b Hb) as (i & t & txs & p & ph & n & ->). reflexivity.
Qed.

(** C7 (as corrected): [Blockchain(difficulty)] builds a one-block chain
    whose genesis block has index 1, proof 100, previous hash ["1"], no
    transactions and the note ["Genesis Block"]. *)
Theorem init_genesis_block (d : nat) (ts : Z) :
  exists bc, blockchain_init sha256_hexdigest json_dumps d ts = Some bc /\
    chain bc = [JObj [("index", JNum 1); ("timestamp", JNum ts); ("transactions", JArr []);
                      ("proof", JNum 100); ("previous_hash", JStr "1");
                      ("note", JStr "Genesis Block")]] /\
    current_transactions bc = [] /\ difficulty bc = d.
Proof.
  eexists. split; [reflexivity|]. simpl. auto.
Qed.

End Proofs.

(** C9 (as corrected): the upload handler replaces the chain by any JSON
    list, block-shaped or not, and clears the pending batch; any other
    value, or a file that does not parse, leaves the ledger unchanged and
    only reports an error. *)
Theorem upload_chain_behaviour (bc : Blockchain) (loaded : option json) :
  match loaded with
  | Some (JArr l) =>
      upload_chain bc loaded =
      ({| chain := l; current_transactions := []; difficulty := difficulty bc |}, Replaced)
  | _ => fst (upload_chain bc loaded) = bc /\ snd (upload_chain bc loaded) <> Replaced
  end.
Proof.
  destruct loaded as [[| | | | |]|]; simpl; try (split; [reflexivity | discriminate]).
  reflexivity.
Qed.

(** *** Balances *)

Lemma py_eq_str_addr (v : json) (a : string) :
  py_eq v (JStr a) = match v with JStr s => String.eqb s a | _ => false end.
Proof. destruct v; reflexivity. Qed.

Lemma spec_balance_app (a : string) (l1 l2 : list json) :
  spec_balance a (l1 ++ l2) = spec_balance a l1 + spec_balance a l2.
Proof. induction l1 as [|tx l1 IH]; simpl; [reflexivity | rewrite IH; lia]. Qed.

Lemma balance_step_wf (a : string) (acc : Z) (tx : json) :
  wf_tx tx = true ->
  balance_step (JStr a) acc tx =
  Some (acc + ((if field_is tx "recipient" a then amount_of tx else 0)
               - (if field_is tx "sender" a then amount_of tx else 0))).
Proof.
  unfold wf_tx, balance_step, field_is, amount_of.
  destruct (getitem tx "sender") as [s|]; [|discriminate].
  destruct (getitem tx "recipient") as [r|]; [|discriminate].
  destruct (getitem tx "amount") as [[| | n | | |]|]; try discriminate.
  intros _. simpl. rewrite !py_eq_str_addr.
  destruct r; destruct s; simpl; try (f_equal; lia);
    repeat match goal with |- context [String.eqb ?x ?y] => destruct (String.eqb x y) end;
    simpl; f_equal; lia.
Qed.

Lemma fold_balance_wf (a : string) (l : list json) (acc : Z) :
  forallb wf_tx l = true ->
  fold_opt (balance_step (JStr a)) l acc = Some (acc + spec_balance a l).
Proof.
  revert acc; induction l as [|tx l IH]; intros acc Hw; simpl; [f_equal; lia|].
  apply andb_prop in Hw as [Hw1 Hw2].
  rewrite balance_step_wf by exact Hw1. simpl. rewrite IH by exact Hw2. f_equal; lia.
Qed.

Lemma fold_chain_balance_wf (a : string) (c : list json) (acc : Z) :
  forallb wf_block c = true ->
  fold_opt (fun bal block =>
              obind (getitem block "transactions") (fun txs =>
              obind (py_iter txs) (fun l =>
              fold_opt (balance_step (JStr a)) l bal))) c acc =
  Some (acc + spec_balance a (concat (map block_txs c))).
Proof.
  revert acc; induction c as [|b c IH]; intros acc Hw; simpl; [f_equal; lia|].
  apply andb_prop in Hw as [Hb Hc].
  unfold wf_block, block_txs in *.
  destruct (getitem b "transactions") as [[| | | | l |]|]; try discriminate.
  simpl. rewrite fold_balance_wf by exact Hb. simpl. rewrite IH by exact Hc.
  rewrite spec_balance_app. f_equal; lia.
Qed.

Lemma compute_balance_wf (bc : Blockchain) (a : string) :
  wf_ledger bc = true ->
  compute_balance bc (JStr a) = Some (spec_balance a (ledger_txs bc)).
Proof.
  intros Hwf. unfold wf_ledger in Hwf. apply andb_prop in Hwf as [Hc Hp].
  unfold compute_balance, ledger_txs.
  rewrite fold_chain_balance_wf by exact Hc. simpl.
  rewrite fold_balance_wf by exact Hp. rewrite spec_balance_app. f_equal; lia.
Qed.

(** C1: on a ledger in the shape of the data model, [compute_balance(a)]
    returns the sum over all transactions of the sealed chain, then of the
    pending batch, of [+amount] where the recipient is [a] and [-amount]
    where the sender is [a]. *)
Theorem compute_balance_replay (bc : Blockchain) (a : string)
    (Hwf : wf_ledger bc = true) :
  compute_balance bc (JStr a) = Some (spec_balance a (ledger_txs bc)).
Proof.
  exact (compute_balance_wf bc a Hwf).
Qed.

(** *** The per-address summary *)

Lemma assoc_dict_set_other (k k' : string) (x : json) (kvs : list (string * json)) :
  k <> k' -> assoc k (dict_set k' x kvs) = assoc k kvs.
Proof.
  intros Hne. induction kvs as [|[k0 v] rest IH]; simpl.
  - destruct (String.eqb_spec k k'); [congruence | reflexivity].
  - destruct (String.eqb_spec k' k0) as [<-|]; simpl.
    + destruct (String.eqb_spec k k'); [congruence | reflexivity].
    + destruct (String.eqb k k0); [reflexivity | exact IH].
Qed.

Lemma assoc_dict_update_other (k : string) (upd kvs : list (string * json)) :
  ~ In k (map fst upd) -> assoc k (dict_update kvs upd) = assoc k kvs.
Proof.
  unfold dict_update. revert kvs; induction upd as [|[k' x] upd IH]; intros kvs Hn; simpl.
  - reflexivity.
  - simpl in Hn. rewrite IH by tauto. apply assoc_dict_set_other. intros ->; tauto.
Qed.

Lemma annotate_fields (tx t' : json) (upd : list (string * json)) :
  ~ In "sender" (map fst upd) -> ~ In "recipient" (map fst upd) ->
  ~ In "amount" (map fst upd) ->
  tx_annotate tx upd = Some t' -> fields t' = fields tx.
Proof.
  intros H1 H2 H3 Ht. destruct tx; try discriminate. injection Ht as <-.
  unfold fields; simpl. rewrite !assoc_dict_update_other by assumption. reflexivity.
Qed.

Lemma wf_tx_str_obj (tx : json) : wf_tx_str tx = true -> exists kvs, tx = JObj kvs.
Proof. destruct tx; try discriminate. eauto. Qed.

Lemma annotate_wf (tx : json) (upd : list (string * json)) :
  ~ In "sender" (map fst upd) -> ~ In "recipient" (map fst upd) ->
  ~ In "amount" (map fst upd) ->
  wf_tx_str tx = true ->
  exists t', tx_annotate tx upd = Some t' /\ fields t' = fields tx.
Proof.
  intros H1 H2 H3 Hw. destruct (wf_tx_str_obj tx Hw) as [kvs ->].
  eexists. split; [reflexivity|]. apply (annotate_fields _ _ upd); auto.
Qed.

Ltac not_in_keys := simpl; intros [H|[H|[H|[]]]]; discriminate.

Lemma all_tx_block (block bi bt : json) (l acc : list json) :
  getitem block "index" = Some bi -> getitem block "timestamp" = Some bt ->
  forallb wf_tx_str l = true ->
  exists X,
    fold_opt (fun txs tx =>
                let* bi := getitem block "index" in
                let* bt := getitem block "timestamp" in
                let* c := tx_annotate tx [("block_index", bi);
                                          ("block_timestamp", bt);
                                          ("status", JStr "confirmed")] in
                Some (txs ++ [c])%list) l acc = Some (acc ++ X)%list /\
    map fields X = map fields l.
Proof.
  intros Hi Ht.
  match goal with |- context [fold_opt ?f _ _] => set (F := f) end.
  revert acc; induction l as [|tx l IH]; intros acc Hw; simpl.
  - exists []. rewrite app_nil_r. auto.
  - apply andb_prop in Hw as [Hw1 Hw2].
    destruct (annotate_wf tx [("block_index", bi); ("block_timestamp", bt);
                              ("status", JStr "confirmed")]) as (t' & Ht' & Hf);
      try not_in_keys; [exact Hw1|].
    assert (E : F acc tx = Some (acc ++ [t'])%list)
      by (unfold F; rewrite Hi, Ht; simpl; rewrite Ht'; reflexivity).
    rewrite E. simpl.
    destruct (IH (acc ++ [t'])%list Hw2) as (X & HX & HfX).
    rewrite HX, <- app_assoc. exists (t' :: X). simpl. rewrite Hf, HfX. auto.
Qed.

Lemma all_tx_pending (l acc : list json) :
  forallb wf_tx_str l = true ->
  exists X,
    fold_opt (fun txs tx =>
                let* c := tx_annotate tx [("block_index", JNull);
                                          ("block_timestamp", JNull);
                                          ("status", JStr "pending")] in
                Some (txs ++ [c])%list) l acc = Some (acc ++ X)%list /\
    map fields X = map fields l.
Proof.
  revert acc; induction l as [|tx l IH]; intros acc Hw; simpl.
  - exists []. rewrite app_nil_r. auto.
  - apply andb_prop in Hw as [Hw1 Hw2].
    destruct (annotate_wf tx [("block_index", JNull); ("block_timestamp", JNull);
                              ("status", JStr "pending")]) as (t' & Ht' & Hf);
      try not_in_keys; [exact Hw1|].
    rewrite Ht'. simpl.
    destruct (IH (acc ++ [t'])%list Hw2) as (X & HX & HfX).
    rewrite HX, <- app_assoc. exists (t' :: X). simpl. rewrite Hf, HfX. auto.
Qed.

Lemma wf_block_str_inv (b : json) :
  wf_block_str b = true ->
  exists bi bt l, getitem b "index" = Some bi /\ getitem b "timestamp" = Some bt /\
    getitem b "transactions" = Some (JArr l) /\ forallb wf_tx_str l = true.
Proof.
  unfold wf_block_str.
  destruct (getitem b "index") as [bi|]; [|discriminate].
  destruct (getitem b "timestamp") as [bt|]; [|discriminate].
  destruct (getitem b "transactions") as [[| | | | l |]|]; try discriminate.
  intros Hl. exists bi, bt, l. auto.
Qed.

Lemma all_transactions_fields (bc : Blockchain) :
  wf_ledger_str bc = true ->
  exists txs, all_transactions bc = Some txs /\ map fields txs = map fields (ledger_txs bc).
Proof.
  unfold wf_ledger_str. intros Hw. apply andb_prop in Hw as [Hc Hp].
  assert (Hchain : forall acc, exists X,
    fold_opt (fun txs block =>
                let* t := getitem block "transactions" in
                let* l := py_iter t in
                fold_opt (fun txs tx =>
                            let* bi := getitem block "index" in
                            let* bt := getitem block "timestamp" in
                            let* c := tx_annotate tx [("block_index", bi);
                                                      ("block_timestamp", bt);
                                                      ("status", JStr "confirmed")] in
                            Some (txs ++ [c])%list) l txs)
             (chain bc) acc = Some (acc ++ X)%list /\
    map fields X = map fields (concat (map block_txs (chain bc)))).
  { clear Hp. induction (chain bc) as [|b c IH]; intros acc; simpl.
    - exists []. rewrite app_nil_r. auto.
    - simpl in Hc. apply andb_prop in Hc as [Hb Hc].
      destruct (wf_block_str_inv b Hb) as (bi & bt & l & Ei & Et & Etx & Hl).
      unfold block_txs. rewrite Etx.
      simpl. destruct (all_tx_block b bi bt l acc Ei Et Hl) as (X & HX & HfX).
      rewrite HX. cbn [obind]. destruct (IH Hc (acc ++ X)%list) as (Y & HY & HfY).
      rewrite HY, <- app_assoc. exists (X ++ Y)%list.
      rewrite !map_app, HfX, HfY. auto. }
  destruct (Hchain []) as (X & HX & HfX).
  unfold all_transactions. rewrite HX. simpl.
  destruct (all_tx_pending (current_transactions bc) X Hp) as (Y & HY & HfY).
  rewrite HY. eexists. split; [reflexivity|].
  unfold ledger_txs. rewrite !map_app, HfX, HfY. reflexivity.
Qed.

Lemma existsb_py_eq_str (x : string) (acc : list string) :
  existsb (py_eq (JStr x)) (map JStr acc) = existsb (String.eqb x) acc.
Proof.
  induction acc as [|y acc IH]; [reflexivity|]. cbn [map existsb]. rewrite IH. reflexivity.
Qed.

Lemma set_add_str (x : string) (acc : list string) :
  set_add (JStr x) (map JStr acc) = Some (map JStr (str_add x acc)).
Proof.
  unfold set_add, str_add. rewrite <- existsb_py_eq_str.
  destruct (existsb (py_eq (JStr x)) (map JStr acc)); [reflexivity|].
  rewrite map_app. reflexivity.
Qed.

Lemma wf_tx_str_inv (t : json) :
  wf_tx_str t = true ->
  exists kvs, t = JObj kvs /\ getitem t "sender" = Some (JStr (sender_str t)) /\
    getitem t "recipient" = Some (JStr (recipient_str t)) /\
    getitem t "amount" = Some (JNum (amount_of t)).
Proof.
  intros Hw. destruct (wf_tx_str_obj t Hw) as [kvs ->]. exists kvs. split; [reflexivity|].
  unfold wf_tx_str, sender_str, recipient_str, amount_of in *.
  destruct (getitem (JObj kvs) "sender") as [[| | | s | |]|]; try discriminate.
  destruct (getitem (JObj kvs) "recipient") as [[| | | r | |]|]; try discriminate.
  destruct (getitem (JObj kvs) "amount") as [[| | n | | |]|]; try discriminate.
  auto.
Qed.

Lemma extract_fold (txs : list json) (acc : list string) :
  forallb wf_tx_str txs = true ->
  fold_opt (fun addrs tx =>
              let* s := dict_get tx "sender" in
              let* a1 := set_add s addrs in
              let* r := dict_get tx "recipient" in
              set_add r a1) txs (map JStr acc) = Some (map JStr (addr_fold txs acc)).
Proof.
  match goal with |- context [fold_opt ?f _ _] => set (F := f) end.
  revert acc; induction txs as [|t txs IH]; intros acc Hw; cbn [fold_opt]; [reflexivity|].
  apply andb_prop in Hw as [Hw1 Hw2].
  assert (E : F (map JStr acc) t =
              Some (map JStr (str_add (recipient_str t) (str_add (sender_str t) acc)))).
  { destruct (wf_tx_str_inv t Hw1) as (kvs & Ht & Hs & Hr & _).
    unfold F. rewrite Ht in *. cbn [dict_get getitem] in *.
    rewrite Hs. cbn [obind]. rewrite set_add_str. cbn [obind].
    rewrite Hr. cbn [obind]. apply set_add_str. }
  rewrite E. cbn [obind]. apply IH. exact Hw2.
Qed.

Lemma filter_not_null_str (l : list string) :
  filter (fun a => match a with JNull => false | _ => true end) (map JStr l) = map JStr l.
Proof. induction l as [|x l IH]; simpl; [reflexivity | rewrite IH; reflexivity]. Qed.

Lemma extract_addresses_str (txs : list json) :
  forallb wf_tx_str txs = true ->
  extract_addresses txs = Some (map JStr (addr_fold txs [])).
Proof.
  intros Hw. unfold extract_addresses.
  pose proof (extract_fold txs [] Hw) as E. cbn [map] in E.
  rewrite E. cbn [obind]. rewrite filter_not_null_str. reflexivity.
Qed.

Lemma str_add_nodup (x : string) (acc : list string) :
  NoDup acc -> NoDup (str_add x acc).
Proof.
  unfold str_add. intros Hn. destruct (existsb (String.eqb x) acc) eqn:E; [exact Hn|].
  apply NoDup_app; [exact Hn | constructor; [intros []|constructor] |].
  intros y Hy [->|[]]. revert E. assert (existsb (String.eqb y) acc = true).
  { apply existsb_exists. exists y. split; [exact Hy | apply String.eqb_refl]. }
  intros E. congruence.
Qed.

Lemma str_add_in (x y : string) (acc : list string) :
  In y (str_add x acc) <-> y = x \/ In y acc.
Proof.
  unfold str_add. destruct (existsb (String.eqb x) acc) eqn:E.
  - apply existsb_exists in E as (z & Hz & Ez). apply String.eqb_eq in Ez. subst z.
    split; [tauto|]. intros [->|H]; assumption.
  - rewrite in_app_iff. simpl. split.
    + intros [H|[H|[]]]; [right; exact H | left; symmetry; exact H].
    + intros [H|H]; [right; left; symmetry; exact H | left; exact H].
Qed.

Lemma addr_fold_nodup (txs : list json) (acc : list string) :
  NoDup acc -> NoDup (addr_fold txs acc).
Proof.
  revert acc; induction txs as [|t txs IH]; intros acc Hn; simpl; [exact Hn|].
  apply IH. apply str_add_nodup, str_add_nodup, Hn.
Qed.

Lemma addr_fold_in (txs : list json) (acc : list string) (x : string) :
  In x (addr_fold txs acc) <->
  In x acc \/ exists t, In t txs /\ (sender_str t = x \/ recipient_str t = x).
Proof.
  revert acc; induction txs as [|t txs IH]; intros acc; simpl.
  - split; [tauto|]. intros [H|(t & [] & _)]; exact H.
  - rewrite IH, !str_add_in. split.
    + intros [[H|[H|H]]|(t' & Ht' & Hx)]; eauto 7.
    + intros [H|(t' & [<-|Ht'] & [Hx|Hx])]; eauto 7.
Qed.

(** [fields] determines everything the summaries read. *)
Lemma fields_wf_tx_str (t1 t2 : json) : fields t1 = fields t2 -> wf_tx_str t1 = wf_tx_str t2.
Proof. unfold fields, wf_tx_str. intros H. injection H as -> -> ->. reflexivity. Qed.

Lemma fields_spec_balance (a : string) (l1 l2 : list json) :
  map fields l1 = map fields l2 -> spec_balance a l1 = spec_balance a l2.
Proof.
  revert l2; induction l1 as [|t1 l1 IH]; intros [|t2 l2] H; try discriminate; simpl; auto.
  injection H as Hs Hr Ha Hl.
  unfold field_is, amount_of. rewrite Hs, Hr, Ha, (IH l2 Hl). reflexivity.
Qed.

Lemma fields_addr_fold (l1 l2 : list json) (acc : list string) :
  map fields l1 = map fields l2 -> addr_fold l1 acc = addr_fold l2 acc.
Proof.
  revert l2 acc; induction l1 as [|t1 l1 IH]; intros [|t2 l2] acc H; try discriminate; simpl; auto.
  injection H as Hs Hr Ha Hl.
  unfold sender_str, recipient_str. rewrite Hs, Hr. apply IH, Hl.
Qed.

Lemma fields_forallb_wf (l1 l2 : list json) :
  map fields l1 = map fields l2 -> forallb wf_tx_str l1 = forallb wf_tx_str l2.
Proof.
  revert l2; induction l1 as [|t1 l1 IH]; intros [|t2 l2] H; try discriminate; simpl; auto.
  injection H as Hs Hr Ha Hl.
  assert (Hf : fields t1 = fields t2) by (unfold fields; congruence).
  rewrite (fields_wf_tx_str _ _ Hf), (IH l2 Hl). reflexivity.
Qed.

Lemma fold_opt_some {A B} (f : A -> B -> option A) (l : list B) (acc : A) :
  (forall a x, In x l -> exists y, f a x = Some y) -> exists r, fold_opt f l acc = Some r.
Proof.
  revert acc; induction l as [|x l IH]; intros acc H; simpl; [eauto|].
  destruct (H acc x (or_introl eq_refl)) as [y ->]. simpl.
  apply IH. intros a z Hz. apply H. right. exact Hz.
Qed.

Lemma sum_amounts_some (txs : list json) (key : string) (addr : json) :
  forallb wf_tx_str txs = true -> key = "sender" \/ key = "recipient" ->
  exists v, sum_amounts txs key addr = Some v.
Proof.
  intros Hw Hk. unfold sum_amounts. apply fold_opt_some. intros a t Ht.
  rewrite forallb_forall in Hw.
  destruct (wf_tx_str_inv t (Hw t Ht)) as (kvs & _ & Hs & Hr & Ham). cbv beta.
  destruct Hk as [->| ->]; [rewrite Hs | rewrite Hr]; cbn [obind];
    (destruct (py_eq _ addr); [rewrite Ham; cbn [obind py_num]|]; eauto).
Qed.

Lemma count_matching_some (txs : list json) (key : string) (addr : json) :
  forallb wf_tx_str txs = true -> key = "sender" \/ key = "recipient" ->
  exists v, count_matching txs key addr = Some v.
Proof.
  intros Hw Hk. unfold count_matching. apply fold_opt_some. intros a t Ht.
  rewrite forallb_forall in Hw.
  destruct (wf_tx_str_inv t (Hw t Ht)) as (kvs & _ & Hs & Hr & _). cbv beta.
  destruct Hk as [->| ->]; [rewrite Hs | rewrite Hr]; cbn [obind]; eauto.
Qed.

Lemma rows_fold (bc : Blockchain) (txs : list json) (strs : list string)
    (racc : list summary_row) :
  wf_ledger bc = true -> forallb wf_tx_str txs = true ->
  exists R,
    fold_opt (fun rows addr =>
                  let* received := sum_amounts txs "recipient" addr in
                  let* sent := sum_amounts txs "sender" addr in
                  let* count_in := count_matching txs "recipient" addr in
                  let* count_out := count_matching txs "sender" addr in
                  let* balance := compute_balance bc addr in
                  Some (rows ++ [mkRow addr balance received sent count_in count_out
                                       (count_in + count_out)])%list)
             (map JStr strs) racc = Some (racc ++ R)%list /\
    map row_address R = map JStr strs /\
    map row_balance R = map (fun x => spec_balance x (ledger_txs bc)) strs.
Proof.
  intros Hwf Hw.
  match goal with |- context [fold_opt ?f _ _] => set (F := f) end.
  revert racc; induction strs as [|x strs IH]; intros racc; cbn [map fold_opt].
  - exists []. rewrite app_nil_r. auto.
  - destruct (sum_amounts_some txs "recipient" (JStr x) Hw (or_intror eq_refl)) as [r Er].
    destruct (sum_amounts_some txs "sender" (JStr x) Hw (or_introl eq_refl)) as [s Es].
    destruct (count_matching_some txs "recipient" (JStr x) Hw (or_intror eq_refl)) as [ci Eci].
    destruct (count_matching_some txs "sender" (JStr x) Hw (or_introl eq_refl)) as [co Eco].
    assert (E : F racc (JStr x) =
                Some (racc ++ [mkRow (JStr x) (spec_balance x (ledger_txs bc)) r s ci co
                                     (ci + co)])%list).
    { unfold F. rewrite Er, Es, Eci, Eco, (compute_balance_wf bc x Hwf). reflexivity. }
    rewrite E. cbn [obind].
    destruct (IH (racc ++ [mkRow (JStr x) (spec_balance x (ledger_txs bc)) r s ci co
                                 (ci + co)])%list) as (R & HR & Ha & Hb).
    rewrite HR, <- app_assoc. eexists. split; [reflexivity|].
    simpl. rewrite Ha, Hb. auto.
Qed.

Lemma insert_by_balance_perm (r : summary_row) (rows : list summary_row) :
  Permutation (insert_by_balance r rows) (r :: rows).
Proof.
  induction rows as [|r' rows IH]; simpl; [reflexivity|].
  destruct (Z.leb (row_balance r') (row_balance r)); [reflexivity|].
  rewrite IH. apply perm_swap.
Qed.

Lemma sort_by_balance_perm (rows : list summary_row) :
  Permutation (sort_by_balance_desc rows) rows.
Proof.
  induction rows as [|r rows IH]; simpl; [reflexivity|].
  rewrite insert_by_balance_perm. apply perm_skip. exact IH.
Qed.










Lemma wf_tx_str_wf (t : json) : wf_tx_str t = true -> wf_tx t = true.
Proof.
  unfold wf_tx_str, wf_tx.
  destruct (getitem t "sender") as [[| | | | |]|]; try discriminate;
  destruct (getitem t "recipient") as [[| | | | |]|]; try discriminate;
  destruct (getitem t "amount") as [[| | | | |]|]; try discriminate; reflexivity.
Qed.

Lemma forallb_wf_tx_str_wf (l : list json) :
  forallb wf_tx_str l = true -> forallb wf_tx l = true.
Proof.
  induction l as [|t l IH]; simpl; [reflexivity|].
  intros H. apply andb_prop in H as [H1 H2]. rewrite wf_tx_str_wf, IH; auto.
Qed.

Lemma wf_ledger_str_wf (bc : Blockchain) : wf_ledger_str bc = true -> wf_ledger bc = true.
Proof.
  unfold wf_ledger_str, wf_ledger. intros H. apply andb_prop in H as [Hc Hp].
  rewrite forallb_wf_tx_str_wf by exact Hp. rewrite andb_true_r.
  induction (chain bc) as [|b c IH]; simpl in *; [reflexivity|].
  apply andb_prop in Hc as [Hb Hc].
  destruct (wf_block_str_inv b Hb) as (_ & _ & l & _ & _ & Etx & Hl).
  unfold wf_block at 1. rewrite Etx, forallb_wf_tx_str_wf, IH; auto.
Qed.

Lemma wf_ledger_str_txs (bc : Blockchain) :
  wf_ledger_str bc = true -> forallb wf_tx_str (ledger_txs bc) = true.
Proof.
  unfold wf_ledger_str, ledger_txs. intros H. apply andb_prop in H as [Hc Hp].
  rewrite forallb_app, Hp, andb_true_r.
  induction (chain bc) as [|b c IH]; simpl in *; [reflexivity|].
  apply andb_prop in Hc as [Hb Hc].
  destruct (wf_block_str_inv b Hb) as (_ & _ & l & _ & _ & Etx & Hl).
  rewrite forallb_app. unfold block_txs at 1. rewrite Etx, Hl, IH; auto.
Qed.

Lemma address_summary_wf (bc : Blockchain) :
  wf_ledger_str bc = true ->
  exists strs rows0 rows,
    address_summary bc = Some rows /\ Permutation rows rows0 /\
    map row_address rows0 = map JStr strs /\
    map row_balance rows0 = map (fun x => spec_balance x (ledger_txs bc)) strs /\
    NoDup strs /\
    (forall x, In x strs <->
       exists t, In t (ledger_txs bc) /\ (sender_str t = x \/ recipient_str t = x)).
Proof.
  intros Hw.
  destruct (all_transactions_fields bc Hw) as (txs & Etx & Hf).
  pose proof (wf_ledger_str_txs bc Hw) as HwL.
  assert (Hwt : forallb wf_tx_str txs = true) by (rewrite (fields_forallb_wf _ _ Hf); exact HwL).
  unfold address_summary. rewrite Etx. cbn [obind].
  rewrite (extract_addresses_str txs Hwt). cbn [obind].
  destruct (rows_fold bc txs (addr_fold txs []) [] (wf_ledger_str_wf bc Hw) Hwt)
    as (R & HR & Ha & Hb).
  rewrite HR. cbn [obind app].
  exists (addr_fold txs []), R, (match R with [] => [] | _ => sort_by_balance_desc R end).
  split; [destruct R; reflexivity|].
  split; [destruct R; [reflexivity | apply sort_by_balance_perm]|].
  split; [exact Ha|]. split; [exact Hb|].
  split; [apply addr_fold_nodup, NoDup_nil|].
  intros x. rewrite (fields_addr_fold _ _ _ Hf), addr_fold_in. simpl.
  split; [intros [[]|H]; exact H | intros H; right; exact H].
Qed.

Lemma NoDup_map_JStr (l : list string) : NoDup l -> NoDup (map JStr l).
Proof.
  induction 1 as [|x l Hx Hd IH]; simpl; constructor; [|exact IH].
  intros Hin. apply in_map_iff in Hin as (y & Hy & Hy'). injection Hy as ->. contradiction.
Qed.

(** C8 (as corrected): on a ledger with string addresses, the address set of
    [address_summary] is every distinct address observed as sender or
    recipient across the sealed chain and the pending batch, the mint
    sentinel ["0"] included. *)
Theorem address_summary_addresses (bc : Blockchain) (Hw : wf_ledger_str bc = true) :
  exists rows, address_summary bc = Some rows /\
    NoDup (map row_address rows) /\
    (forall v, In v (map row_address rows) <->
       exists a, v = JStr a /\
         exists t, In t (ledger_txs bc) /\
           (getitem t "sender" = Some (JStr a) \/ getitem t "recipient" = Some (JStr a))).
Proof.
  destruct (address_summary_wf bc Hw) as (strs & rows0 & rows & Es & Hp & Ha & _ & Hd & Hin).
  exists rows. split; [exact Es|].
  assert (Hpm : Permutation (map row_address rows) (map JStr strs))
    by (rewrite <- Ha; apply Permutation_map, Hp).
  split; [apply (Permutation_NoDup (Permutation_sym Hpm)), NoDup_map_JStr, Hd|].
  pose proof (wf_ledger_str_txs bc Hw) as HwL. rewrite forallb_forall in HwL.
  intros v. split.
  - intros Hv. apply (Permutation_in _ Hpm), in_map_iff in Hv as (a & <- & Ha').
    exists a. split; [reflexivity|].
    apply Hin in Ha' as (t & Ht & Hst). exists t. split; [exact Ht|].
    destruct (wf_tx_str_inv t (HwL t Ht)) as (_ & _ & Hs & Hr & _).
    destruct Hst as [<-|<-]; [left; exact Hs | right; exact Hr].
  - intros (a & -> & t & Ht & Hst). apply (Permutation_in _ (Permutation_sym Hpm)).
    apply in_map. apply Hin. exists t. split; [exact Ht|].
    destruct (wf_tx_str_inv t (HwL t Ht)) as (_ & _ & Hs & Hr & _).
    destruct Hst as [E|E]; [left; rewrite Hs in E | right; rewrite Hr in E]; congruence.
Qed.



(** ** Further properties of the code *)

Section Further.

Variable sha256_hexdigest : string -> string.
Variable json_dumps : json -> string.
Variable py_str : json -> string.
Variable json_loads : string -> option json.
Variable float_of_string : string -> option Z.

(** *** Loops and sealing *)

Lemma fold_opt_app {A B} (f : A -> B -> option A) (l1 l2 : list B) (acc : A) :
  fold_opt f (l1 ++ l2) acc = obind (fold_opt f l1 acc) (fold_opt f l2).
Proof.
  revert acc; induction l1 as [|x l1 IH]; intros acc; simpl; [reflexivity|].
  destruct (f acc x); simpl; [apply IH | reflexivity].
Qed.

Lemma new_block_inv (bc bc' : Blockchain) (proof : Z) (ph : option string) (note : string)
    (ts : Z) (blk : json) :
  new_block sha256_hexdigest json_dumps bc proof ph note ts = Some (bc', blk) ->
  exists prev,
    bc' = {| chain := (chain bc ++ [blk])%list; current_transactions := [];
             difficulty := difficulty bc |} /\
    blk = JObj [("index", JNum (Z.of_nat (length (chain bc)) + 1));
                ("timestamp", JNum ts);
                ("transactions", JArr (current_transactions bc));
                ("proof", JNum proof);
                ("previous_hash", JStr prev);
                ("note", JStr note)].
Proof.
  unfold new_block. intros H.
  match type of H with obind ?m _ = _ => destruct m as [prev|] end; [|discriminate].
  simpl in H. injection H as <- <-. exists prev. split; reflexivity.
Qed.

Lemma ledger_txs_seal (bc bc' : Blockchain) (proof : Z) (ph : option string) (note : string)
    (ts : Z) (blk : json) :
  new_block sha256_hexdigest json_dumps bc proof ph note ts = Some (bc', blk) ->
  ledger_txs bc' = ledger_txs bc.
Proof.
  intros H. apply new_block_inv in H as (prev & -> & ->).
  unfold ledger_txs. simpl. rewrite map_app, concat_app. simpl.
  rewrite !app_nil_r. reflexivity.
Qed.

Lemma compute_balance_seal (bc bc' : Blockchain) (proof : Z) (ph : option string)
    (note : string) (ts : Z) (blk : json) (addr : json) :
  new_block sha256_hexdigest json_dumps bc proof ph note ts = Some (bc', blk) ->
  compute_balance bc' addr = compute_balance bc addr.
Proof.
  intros H. apply new_block_inv in H as (prev & -> & ->).
  unfold compute_balance. simpl. rewrite fold_opt_app.
  match goal with |- context [fold_opt ?g (chain bc) 0] => destruct (fold_opt g (chain bc) 0) as [b|] end;
    simpl; [|reflexivity].
  destruct (fold_opt (balance_step addr) (current_transactions bc) b); reflexivity.
Qed.

Lemma compute_balance_intake (bc : Blockchain) (s r : json) (amount ts : Z) (addr : json) :
  compute_balance (fst (new_transaction bc s r amount ts)) addr =
  obind (compute_balance bc addr) (fun b =>
    Some (b + (if py_eq r addr then amount else 0) - (if py_eq s addr then amount else 0))).
Proof.
  unfold compute_balance. simpl. 
  match goal with |- context [fold_opt ?g (chain bc) 0] => destruct (fold_opt g (chain bc) 0) as [b|] end;
    simpl; [|reflexivity].
  rewrite fold_opt_app.
  destruct (fold_opt (balance_step addr) (current_transactions bc) b) as [b'|]; simpl; [|reflexivity].
  unfold balance_step. simpl.
  destruct (py_eq r addr), (py_eq s addr); simpl; f_equal; lia.
Qed.

(** X1: sealing a block, with or without a given [previous_hash], changes
    no balance and leaves the ledger's transaction sequence (the chain's
    transactions, then the pending ones) as it was: the pending batch moves
    into the chain unchanged. *)
Theorem new_block_keeps_balances (bc bc' : Blockchain) (proof : Z) (ph : option string)
    (note : string) (ts : Z) (blk : json)
    (Hs : new_block sha256_hexdigest json_dumps bc proof ph note ts = Some (bc', blk)) :
  (forall addr, compute_balance bc' addr = compute_balance bc addr) /\
  ledger_txs bc' = ledger_txs bc.
Proof.
  split; [intros addr; exact (compute_balance_seal _ _ _ _ _ _ _ addr Hs)|].
  exact (ledger_txs_seal _ _ _ _ _ _ _ Hs).
Qed.



(** *** Invariants of the reachable ledgers *)

Lemma reachable_wf_full (bc : Blockchain) :
  reachable sha256_hexdigest json_dumps bc -> wf_ledger_full bc = true.
Proof.
  induction 1 as [d ts bc Hi | bc s r a ts bc' res _ IH Ht | bc proof note ts bc' blk _ IH Hs].
  - unfold blockchain_init, new_block in Hi. simpl in Hi. injection Hi as <-. reflexivity.
  - unfold new_transaction in Ht. injection Ht as <- _.
    unfold wf_ledger_full in *. simpl. apply andb_prop in IH as [Hc Hp].
    rewrite Hc, forallb_app, Hp. reflexivity.
  - apply new_block_inv in Hs as (prev & -> & ->).
    unfold wf_ledger_full in *. simpl. apply andb_prop in IH as [Hc Hp].
    rewrite forallb_app, Hc. simpl. unfold wf_block_full at 1. simpl. rewrite Hp. reflexivity.
Qed.

Lemma reachable_index (bc : Blockchain) :
  reachable sha256_hexdigest json_dumps bc ->
  forall i b, nth_error (chain bc) i = Some b -> getitem b "index" = Some (JNum (Z.of_nat i + 1)).
Proof.
  induction 1 as [d ts bc Hi | bc s r a ts bc' res _ IH Ht | bc proof note ts bc' blk _ IH Hs].
  - unfold blockchain_init, new_block in Hi. simpl in Hi. injection Hi as <-. simpl.
    intros [|[|i]] b H; simpl in H; try discriminate. injection H as <-. reflexivity.
  - unfold new_transaction in Ht. injection Ht as <- _. exact IH.
  - apply new_block_inv in Hs as (prev & -> & ->). simpl. intros i b Hb.
    destruct (Nat.lt_ge_cases i (length (chain bc))) as [Hlt|Hge].
    + rewrite nth_error_app1 in Hb by exact Hlt. exact (IH i b Hb).
    + rewrite nth_error_app2 in Hb by exact Hge.
      destruct (i - length (chain bc))%nat as [|k] eqn:E; [|destruct k; discriminate].
      injection Hb as <-. simpl. do 3 f_equal. lia.
Qed.

Lemma wf_tx_obj (t : json) : wf_tx t = true -> exists kvs, t = JObj kvs.
Proof. destruct t; try discriminate. eauto. Qed.

Lemma reachable_last_block (bc : Blockchain) :
  reachable sha256_hexdigest json_dumps bc ->
  exists b, last_block bc = Some b /\
    getitem b "index" = Some (JNum (Z.of_nat (length (chain bc)))).
Proof.
  intros Hr. destruct (reachable_shape sha256_hexdigest json_dumps bc Hr) as [Hne _].
  destruct (rev (chain bc)) as [|b r] eqn:E.
  { destruct (chain bc); [congruence|]. simpl in E. destruct (rev l); discriminate. }
  exists b. unfold last_block. rewrite E. split; [reflexivity|].
  apply rev_cons_app in E.
  rewrite (reachable_index bc Hr (length (rev r)) b).
  - rewrite E, length_app. simpl. do 2 f_equal. lia.
  - rewrite E, nth_error_app2 by lia. rewrite Nat.sub_diag. reflexivity.
Qed.

(** X3: in every ledger reached by construction, intake and sealing, the
    block at position [i] of the chain (counting from 0) has index [i + 1]. *)
Theorem reachable_block_index (bc : Blockchain)
    (Hr : reachable sha256_hexdigest json_dumps bc) :
  forall i b, nth_error (chain bc) i = Some b -> getitem b "index" = Some (JNum (Z.of_nat i + 1)).
Proof. exact (reachable_index bc Hr). Qed.

Lemma reachable_next_index (bc : Blockchain) (s r : json) (amount ts : Z)
    (proof : Z) (note : string) (ts' : Z)
    (Hr : reachable sha256_hexdigest json_dumps bc) :
  snd (new_transaction bc s r amount ts) = Some (Z.of_nat (length (chain bc)) + 1) /\
  exists bc2 blk,
    new_block sha256_hexdigest json_dumps (fst (new_transaction bc s r amount ts))
      proof None note ts' = Some (bc2, blk) /\
    getitem blk "index" = Some (JNum (Z.of_nat (length (chain bc)) + 1)).
Proof.
  destruct (reachable_last_block bc Hr) as (b & Hb & Hi).
  destruct (reachable_shape sha256_hexdigest json_dumps bc Hr) as [Hne _].
  split.
  - unfold new_transaction, last_block in *. cbn [snd chain]. rewrite Hb. cbn [obind].
    rewrite Hi. destruct (chain bc); [congruence | reflexivity].
  - unfold last_block in Hb. destruct (rev (chain bc)) as [|b' r'] eqn:E; [discriminate|].
    apply rev_cons_app in E.
    rewrite (new_block_none sha256_hexdigest json_dumps (fst (new_transaction bc s r amount ts))
               proof note ts' (rev r') b' E).
    do 2 eexists. split; [reflexivity|]. reflexivity.
Qed.

(** X4: on a reachable ledger, [new_transaction] returns [len(chain) + 1],
    and that is the index of the block the next [new_block] seals. *)
Theorem new_transaction_next_index (bc : Blockchain) (s r : json) (amount ts : Z)
    (proof : Z) (note : string) (ts' : Z)
    (Hr : reachable sha256_hexdigest json_dumps bc) :
  snd (new_transaction bc s r amount ts) = Some (Z.of_nat (length (chain bc)) + 1) /\
  exists bc2 blk,
    new_block sha256_hexdigest json_dumps (fst (new_transaction bc s r amount ts))
      proof None note ts' = Some (bc2, blk) /\
    getitem blk "index" = Some (JNum (Z.of_nat (length (chain bc)) + 1)).
Proof. exact (reachable_next_index bc s r amount ts proof note ts' Hr). Qed.

(** *** Edge cases of intake, sealing and mining *)

(** X5: on an empty chain (the state after uploading an empty list),
    [new_transaction] returns 1, [new_block] without a [previous_hash]
    raises ([self.chain[-1]]), and the mining button raises at
    [bc.last_block] without changing the ledger. *)
Theorem empty_chain_behaviour (bc : Blockchain) (s r : json) (amount ts proof : Z)
    (note node_id mnote : string) (ts' : Z) (fuel : nat) (ts1 ts2 : Z)
    (He : chain bc = []) :
  snd (new_transaction bc s r amount ts) = Some 1 /\
  new_block sha256_hexdigest json_dumps bc proof None note ts' = None /\
  mine sha256_hexdigest json_dumps py_str bc node_id mnote fuel ts1 ts2 = (bc, None).
Proof.
  unfold new_transaction, new_block, mine, last_block. cbn [snd chain]. rewrite He. simpl.
  auto.
Qed.

(** X6: when the last block has no numeric [index] (possible after an
    upload), [new_transaction] raises when computing its return value, but
    the transaction has already been appended to the pending batch. *)
Theorem new_transaction_bad_index (bc : Blockchain) (s r : json) (amount ts : Z) (b : json)
    (Hl : last_block bc = Some b) (Hi : obind (getitem b "index") py_num = None) :
  snd (new_transaction bc s r amount ts) = None /\
  chain (fst (new_transaction bc s r amount ts)) = chain bc /\
  current_transactions (fst (new_transaction bc s r amount ts)) =
    (current_transactions bc ++ [JObj [("sender", s); ("recipient", r); ("amount", JNum amount);
                                       ("timestamp", JNum ts)]])%list.
Proof.
  split; [|split; reflexivity].
  unfold new_transaction, last_block in *. cbn [snd chain]. rewrite Hl. cbn [obind].
  destruct (chain bc); [discriminate|].
  destruct (getitem b "index") as [i|]; [|reflexivity]. simpl in Hi |- *. rewrite Hi. reflexivity.
Qed.

(** X7: [previous_hash or self.hash(self.chain[-1])]: an empty
    [previous_hash] is treated as absent, and a non-empty one is stored as
    given, even on an empty chain. *)
Theorem new_block_previous_hash (bc : Blockchain) (proof : Z) (note : string) (ts : Z)
    (p : string) (Hp : p <> EmptyString) :
  new_block sha256_hexdigest json_dumps bc proof (Some EmptyString) note ts =
    new_block sha256_hexdigest json_dumps bc proof None note ts /\
  exists bc' blk,
    new_block sha256_hexdigest json_dumps bc proof (Some p) note ts = Some (bc', blk) /\
    getitem blk "previous_hash" = Some (JStr p) /\
    chain bc' = (chain bc ++ [blk])%list /\ current_transactions bc' = [].
Proof.
  split; [reflexivity|].
  unfold new_block. destruct (String.eqb_spec p EmptyString) as [E|_]; [contradiction|].
  do 2 eexists. split; [reflexivity|]. simpl. auto.
Qed.

(** *** [all_transactions] *)

Lemma assoc_dict_set_same (k : string) (x : json) (kvs : list (string * json)) :
  assoc k (dict_set k x kvs) = Some x.
Proof.
  induction kvs as [|[k0 v] rest IH]; simpl.
  - rewrite String.eqb_refl. reflexivity.
  - destruct (String.eqb_spec k k0) as [<-|Hne]; simpl.
    + rewrite String.eqb_refl. reflexivity.
    + destruct (String.eqb_spec k k0); [contradiction | exact IH].
Qed.

Lemma annotate_meta (kvs : list (string * json)) (bi bt st : json) :
  fields (JObj (dict_update kvs [("block_index", bi); ("block_timestamp", bt); ("status", st)]))
    = fields (JObj kvs) /\
  tx_meta (JObj (dict_update kvs [("block_index", bi); ("block_timestamp", bt); ("status", st)]))
    = (Some bi, Some bt, Some st).
Proof.
  unfold dict_update, fields, tx_meta. cbn [fold_left fst snd getitem].
  split.
  - rewrite !assoc_dict_set_other by discriminate. reflexivity.
  - rewrite assoc_dict_set_same.
    rewrite (assoc_dict_set_other "block_timestamp" "status") by discriminate.
    rewrite assoc_dict_set_same.
    rewrite (assoc_dict_set_other "block_index" "status") by discriminate.
    rewrite (assoc_dict_set_other "block_index" "block_timestamp") by discriminate.
    rewrite assoc_dict_set_same. reflexivity.
Qed.

Lemma annotate_full (tx : json) (bi bt st : json) :
  wf_tx tx = true ->
  exists t', tx_annotate tx [("block_index", bi); ("block_timestamp", bt); ("status", st)] = Some t' /\
    fields t' = fields tx /\ tx_meta t' = (Some bi, Some bt, Some st).
Proof.
  intros Hw. destruct (wf_tx_obj tx Hw) as [kvs ->].
  eexists. split; [reflexivity|]. apply annotate_meta.
Qed.

Lemma all_tx_block_full (block bi bt : json) (l acc : list json) :
  getitem block "index" = Some bi -> getitem block "timestamp" = Some bt ->
  forallb wf_tx l = true ->
  exists X,
    fold_opt (fun txs tx =>
                let* bi := getitem block "index" in
                let* bt := getitem block "timestamp" in
                let* c := tx_annotate tx [("block_index", bi);
                                          ("block_timestamp", bt);
                                          ("status", JStr "confirmed")] in
                Some (txs ++ [c])%list) l acc = Some (acc ++ X)%list /\
    map fields X = map fields l /\
    map tx_meta X = map (fun _ => (Some bi, Some bt, Some (JStr "confirmed"))) l.
Proof.
  intros Hi Ht.
  match goal with |- context [fold_opt ?f _ _] => set (F := f) end.
  revert acc; induction l as [|tx l IH]; intros acc Hw; simpl.
  - exists []. rewrite app_nil_r. auto.
  - apply andb_prop in Hw as [Hw1 Hw2].
    destruct (annotate_full tx bi bt (JStr "confirmed") Hw1) as (t' & Ht' & Hf & Hm).
    assert (E : F acc tx = Some (acc ++ [t'])%list)
      by (unfold F; rewrite Hi, Ht; simpl; rewrite Ht'; reflexivity).
    rewrite E. simpl.
    destruct (IH (acc ++ [t'])%list Hw2) as (X & HX & HfX & HmX).
    rewrite HX, <- app_assoc. exists (t' :: X). simpl. rewrite Hf, HfX, Hm, HmX. auto.
Qed.

Lemma all_tx_pending_full (l acc : list json) :
  forallb wf_tx l = true ->
  exists X,
    fold_opt (fun txs tx =>
                let* c := tx_annotate tx [("block_index", JNull);
                                          ("block_timestamp", JNull);
                                          ("status", JStr "pending")] in
                Some (txs ++ [c])%list) l acc = Some (acc ++ X)%list /\
    map fields X = map fields l /\
    map tx_meta X = map (fun _ => (Some JNull, Some JNull, Some (JStr "pending"))) l.
Proof.
  revert acc; induction l as [|tx l IH]; intros acc Hw; simpl.
  - exists []. rewrite app_nil_r. auto.
  - apply andb_prop in Hw as [Hw1 Hw2].
    destruct (annotate_full tx JNull JNull (JStr "pending") Hw1) as (t' & Ht' & Hf & Hm).
    rewrite Ht'. simpl.
    destruct (IH (acc ++ [t'])%list Hw2) as (X & HX & HfX & HmX).
    rewrite HX, <- app_assoc. exists (t' :: X). simpl. rewrite Hf, HfX, Hm, HmX. auto.
Qed.

Lemma wf_block_full_inv (b : json) :
  wf_block_full b = true ->
  exists bi bt l, getitem b "index" = Some bi /\ getitem b "timestamp" = Some bt /\
    getitem b "transactions" = Some (JArr l) /\ forallb wf_tx l = true.
Proof.
  unfold wf_block_full.
  destruct (getitem b "index") as [bi|]; [|discriminate].
  destruct (getitem b "timestamp") as [bt|]; [|discriminate].
  destruct (getitem b "transactions") as [[| | | | l |]|]; try discriminate.
  intros Hl. exists bi, bt, l. auto.
Qed.

Lemma all_transactions_full (bc : Blockchain) :
  wf_ledger_full bc = true ->
  exists txs, all_transactions bc = Some txs /\
    map fields txs = map fields (ledger_txs bc) /\ map tx_meta txs = ledger_meta bc.
Proof.
  unfold wf_ledger_full. intros Hw. apply andb_prop in Hw as [Hc Hp].
  assert (Hchain : forall acc, exists X,
    fold_opt (fun txs block =>
                let* t := getitem block "transactions" in
                let* l := py_iter t in
                fold_opt (fun txs tx =>
                            let* bi := getitem block "index" in
                            let* bt := getitem block "timestamp" in
                            let* c := tx_annotate tx [("block_index", bi);
                                                      ("block_timestamp", bt);
                                                      ("status", JStr "confirmed")] in
                            Some (txs ++ [c])%list) l txs)
             (chain bc) acc = Some (acc ++ X)%list /\
    map fields X = map fields (concat (map block_txs (chain bc))) /\
    map tx_meta X =
      concat (map (fun b => map (fun _ => (getitem b "index", getitem b "timestamp",
                                           Some (JStr "confirmed"))) (block_txs b)) (chain bc))).
  { clear Hp. induction (chain bc) as [|b c IH]; intros acc; simpl.
    - exists []. rewrite app_nil_r. auto.
    - simpl in Hc. apply andb_prop in Hc as [Hb Hc].
      destruct (wf_block_full_inv b Hb) as (bi & bt & l & Ei & Et & Etx & Hl).
      unfold block_txs. rewrite Etx.
      simpl. destruct (all_tx_block_full b bi bt l acc Ei Et Hl) as (X & HX & HfX & HmX).
      rewrite HX. cbn [obind]. destruct (IH Hc (acc ++ X)%list) as (Y & HY & HfY & HmY).
      rewrite HY, <- app_assoc. exists (X ++ Y)%list.
      rewrite !map_app, HfX, HfY, HmX, HmY, Ei, Et. auto. }
  destruct (Hchain []) as (X & HX & HfX & HmX).
  unfold all_transactions. rewrite HX. simpl.
  destruct (all_tx_pending_full (current_transactions bc) X Hp) as (Y & HY & HfY & HmY).
  rewrite HY. eexists. split; [reflexivity|].
  unfold ledger_txs, ledger_meta. rewrite !map_app, HfX, HfY, HmX, HmY. auto.
Qed.

(** X8: on every reachable ledger, [all_transactions] returns one entry per
    transaction, sealed ones in chain order then the pending ones; each
    entry keeps the sender, recipient and amount of its transaction, and
    carries its block's [index] and [timestamp] with status ["confirmed"],
    or [None], [None] and ["pending"]. *)
Theorem all_transactions_annotates (bc : Blockchain)
    (Hr : reachable sha256_hexdigest json_dumps bc) :
  exists txs, all_transactions bc = Some txs /\
    map fields txs = map fields (ledger_txs bc) /\ map tx_meta txs = ledger_meta bc.
Proof. exact (all_transactions_full bc (reachable_wf_full bc Hr)). Qed.

(** *** Totals and failures of the summaries *)

Lemma fold_opt_additive {B} (f : Z -> B -> option Z) (g : B -> Z) (l : list B) (acc : Z) :
  (forall a t, In t l -> f a t = Some (a + g t)) ->
  fold_opt f l acc = Some (acc + fold_right (fun t s => g t + s) 0 l).
Proof.
  revert acc; induction l as [|x l IH]; intros acc H; simpl; [f_equal; lia|].
  rewrite (H acc x (or_introl eq_refl)). simpl.
  rewrite IH by (intros a t Ht; apply H; right; exact Ht). f_equal; lia.
Qed.

Lemma fold_opt_none {A B} (f : A -> B -> option A) (l : list B) (acc : A) :
  (exists x, In x l /\ forall a, f a x = None) -> fold_opt f l acc = None.
Proof.
  intros (x & Hx & Hf). revert acc; induction l as [|y l IH]; intros acc; [destruct Hx|].
  simpl. destruct Hx as [<-|Hx]; [rewrite Hf; reflexivity|].
  destruct (f acc y); simpl; [apply IH; exact Hx | reflexivity].
Qed.

Lemma wf_tx_inv (t : json) :
  wf_tx t = true ->
  exists kvs s r, t = JObj kvs /\ getitem t "sender" = Some s /\
    getitem t "recipient" = Some r /\ getitem t "amount" = Some (JNum (amount_of t)).
Proof.
  intros Hw. destruct (wf_tx_obj t Hw) as [kvs ->]. unfold wf_tx, amount_of in *.
  destruct (getitem (JObj kvs) "sender") as [s|]; [|discriminate].
  destruct (getitem (JObj kvs) "recipient") as [r|]; [|discriminate].
  destruct (getitem (JObj kvs) "amount") as [[| | n | | |]|]; try discriminate.
  exists kvs, s, r. auto.
Qed.

Lemma sum_amounts_wf (l : list json) (k : string) (addr : json) :
  forallb wf_tx l = true -> k = "sender" \/ k = "recipient" ->
  sum_amounts l k addr = Some (sum_matching k addr l).
Proof.
  intros Hw Hk. unfold sum_amounts, sum_matching.
  rewrite fold_opt_additive with (g := fun t => if matches t k addr then amount_of t else 0);
    [f_equal; lia|].
  intros acc t Ht. rewrite forallb_forall in Hw.
  destruct (wf_tx_inv t (Hw t Ht)) as (kvs & s & r & _ & Hs & Hr & Ham).
  assert (Hv : exists v, getitem t k = Some v) by (destruct Hk as [-> | ->]; eauto).
  destruct Hv as [v Hv]. unfold matches. rewrite Hv. cbn [obind].
  destruct (py_eq v addr); [rewrite Ham; reflexivity | f_equal; lia].
Qed.

Lemma fields_wf_tx (t1 t2 : json) : fields t1 = fields t2 -> wf_tx t1 = wf_tx t2.
Proof. unfold fields, wf_tx. intros H. injection H as -> -> ->. reflexivity. Qed.

Lemma fields_forallb_wf_tx (l1 l2 : list json) :
  map fields l1 = map fields l2 -> forallb wf_tx l1 = forallb wf_tx l2.
Proof.
  revert l2; induction l1 as [|t1 l1 IH]; intros [|t2 l2] H; try discriminate; simpl; auto.
  injection H as Hs Hr Ha Hl.
  assert (Hf : fields t1 = fields t2) by (unfold fields; congruence).
  rewrite (fields_wf_tx _ _ Hf), (IH l2 Hl). reflexivity.
Qed.

Lemma fields_matches (t1 t2 : json) (k : string) (addr : json) :
  k = "sender" \/ k = "recipient" -> fields t1 = fields t2 ->
  matches t1 k addr = matches t2 k addr /\ amount_of t1 = amount_of t2.
Proof.
  intros Hk H. unfold fields in H. injection H as Hs Hr Ha.
  unfold matches, amount_of. rewrite Ha.
  destruct Hk as [-> | ->]; [rewrite Hs | rewrite Hr]; auto.
Qed.

Lemma fields_sum (l1 l2 : list json) (k : string) (addr : json) :
  k = "sender" \/ k = "recipient" -> map fields l1 = map fields l2 ->
  sum_matching k addr l1 = sum_matching k addr l2.
Proof.
  intros Hk. revert l2; induction l1 as [|t1 l1 IH]; intros [|t2 l2] H; try discriminate; simpl; auto.
  injection H as Hs Hr Ha Hl.
  assert (Hf : fields t1 = fields t2) by (unfold fields; congruence).
  unfold sum_matching in *. simpl.
  destruct (fields_matches t1 t2 k addr Hk Hf) as [-> ->]. rewrite (IH l2 Hl). reflexivity.
Qed.

Lemma wf_ledger_full_txs (bc : Blockchain) :
  wf_ledger_full bc = true -> forallb wf_tx (ledger_txs bc) = true.
Proof.
  unfold wf_ledger_full, ledger_txs. intros H. apply andb_prop in H as [Hc Hp].
  rewrite forallb_app, Hp, andb_true_r.
  induction (chain bc) as [|b c IH]; simpl in *; [reflexivity|].
  apply andb_prop in Hc as [Hb Hc].
  destruct (wf_block_full_inv b Hb) as (_ & _ & l & _ & _ & Etx & Hl).
  rewrite forallb_app. unfold block_txs at 1. rewrite Etx, Hl, IH; auto.
Qed.

Lemma wf_ledger_full_wf (bc : Blockchain) : wf_ledger_full bc = true -> wf_ledger bc = true.
Proof.
  unfold wf_ledger_full, wf_ledger. intros H. apply andb_prop in H as [Hc Hp].
  rewrite Hp, andb_true_r.
  induction (chain bc) as [|b c IH]; simpl in *; [reflexivity|].
  apply andb_prop in Hc as [Hb Hc].
  destruct (wf_block_full_inv b Hb) as (_ & _ & l & _ & _ & Etx & Hl).
  unfold wf_block at 1. rewrite Etx, Hl, IH; auto.
Qed.

Lemma total_minted_full (bc : Blockchain) :
  wf_ledger_full bc = true -> total_minted bc = Some (sum_matching "sender" (JStr "0") (ledger_txs bc)).
Proof.
  intros Hw. destruct (all_transactions_full bc Hw) as (txs & Etx & Hf & _).
  unfold total_minted. rewrite Etx. cbn [obind].
  rewrite sum_amounts_wf; [|rewrite (fields_forallb_wf_tx _ _ Hf); apply wf_ledger_full_txs, Hw
                           | left; reflexivity].
  rewrite (fields_sum _ _ "sender" (JStr "0") (or_introl eq_refl) Hf). reflexivity.
Qed.

Lemma balance_step_some (addr : json) (acc : Z) (t : json) :
  wf_tx t = true -> exists v, balance_step addr acc t = Some v.
Proof.
  intros Hw. destruct (wf_tx_inv t Hw) as (kvs & s & r & _ & Hs & Hr & Ham).
  unfold balance_step. rewrite Hr. cbn [obind].
  destruct (py_eq r addr); rewrite ?Ham; cbn [obind py_num]; rewrite Hs; cbn [obind];
    destruct (py_eq s addr); rewrite ?Ham; cbn [obind py_num]; eauto.
Qed.

Lemma compute_balance_some (bc : Blockchain) (addr : json) :
  wf_ledger bc = true -> exists v, compute_balance bc addr = Some v.
Proof.
  unfold wf_ledger. intros H. apply andb_prop in H as [Hc Hp].
  unfold compute_balance.
  assert (Hch : exists b, fold_opt (fun bal block =>
                        let* txs := getitem block "transactions" in
                        let* l := py_iter txs in
                        fold_opt (balance_step addr) l bal) (chain bc) 0 = Some b).
  { apply fold_opt_some. intros a blk Hb. rewrite forallb_forall in Hc.
    pose proof (Hc blk Hb) as Hw. unfold wf_block in Hw.
    destruct (getitem blk "transactions") as [[| | | | l |]|]; try discriminate.
    cbn [obind py_iter]. apply fold_opt_some. intros a' t Ht.
    rewrite forallb_forall in Hw. apply balance_step_some, Hw, Ht. }
  destruct Hch as [b ->]. cbn [obind]. apply fold_opt_some. intros a t Ht.
  rewrite forallb_forall in Hp. apply balance_step_some, Hp, Ht.
Qed.

(** X9: on every reachable ledger, [compute_balance] never raises, whatever
    the address (even [None] or a list), and [total_minted] is the sum of
    the amounts of the transactions, sealed or pending, whose sender is
    ["0"]. *)
Theorem reachable_balance_and_minted (bc : Blockchain)
    (Hr : reachable sha256_hexdigest json_dumps bc) :
  (forall addr, exists v, compute_balance bc addr = Some v) /\
  total_minted bc = Some (sum_matching "sender" (JStr "0") (ledger_txs bc)).
Proof.
  pose proof (reachable_wf_full bc Hr) as Hw. split.
  - intros addr. apply compute_balance_some, wf_ledger_full_wf, Hw.
  - apply total_minted_full, Hw.
Qed.

Lemma set_add_unhashable (v : json) (s : list json) :
  unhashable (Some v) = true -> set_add v s = None.
Proof. destruct v; try discriminate; reflexivity. Qed.

Lemma set_add_hashable (v : json) (s : list json) :
  unhashable (Some v) = false -> exists s', set_add v s = Some s'.
Proof. destruct v; try discriminate; eexists; reflexivity. Qed.

(** X10: on a reachable ledger, one transaction (sealed or pending) whose
    sender or recipient is a list or a dict, as the raw-JSON intake accepts,
    makes [extract_addresses] raise [TypeError] (unhashable set element),
    so [address_summary] and [total_in_circulation] raise. *)
Theorem unhashable_address_breaks_summary (bc : Blockchain)
    (Hr : reachable sha256_hexdigest json_dumps bc)
    (Hu : exists t, In t (ledger_txs bc) /\
            (unhashable (getitem t "sender") || unhashable (getitem t "recipient")) = true) :
  address_summary bc = None /\ total_in_circulation bc = None.
Proof.
  pose proof (reachable_wf_full bc Hr) as Hw.
  destruct (all_transactions_full bc Hw) as (txs & Etx & Hf & _).
  assert (Hwt : forallb wf_tx txs = true)
    by (rewrite (fields_forallb_wf_tx _ _ Hf); apply wf_ledger_full_txs, Hw).
  destruct Hu as (t & Ht & Hun).
  assert (Hin : In (fields t) (map fields txs)) by (rewrite Hf; apply in_map, Ht).
  apply in_map_iff in Hin as (t' & Hft & Ht').
  assert (Hex : extract_addresses txs = None).
  { unfold extract_addresses. rewrite fold_opt_none; [reflexivity|].
    exists t'. split; [exact Ht'|]. intros acc.
    rewrite forallb_forall in Hwt.
    destruct (wf_tx_inv t' (Hwt t' Ht')) as (kvs & s & r & Eo & Hs & Hr' & _).
    unfold fields in Hft. injection Hft as Hs' Hr'' _.
    rewrite Hs in Hs'. rewrite Hr' in Hr''.
    rewrite <- Hs', <- Hr'' in Hun.
    assert (Hds : dict_get t' "sender" = Some s) by (rewrite Eo in *; simpl in *; rewrite Hs; reflexivity).
    assert (Hdr : dict_get t' "recipient" = Some r) by (rewrite Eo in *; simpl in *; rewrite Hr'; reflexivity).
    rewrite Hds. cbn [obind].
    destruct (unhashable (Some s)) eqn:Es.
    - rewrite set_add_unhashable by exact Es. reflexivity.
    - destruct (set_add_hashable s acc Es) as [s' ->]. cbn [obind]. rewrite Hdr. cbn [obind].
      apply set_add_unhashable. exact Hun. }
  assert (Has : address_summary bc = None)
    by (unfold address_summary; rewrite Etx; cbn [obind]; rewrite Hex; reflexivity).
  split; [exact Has|]. unfold total_in_circulation. rewrite Has. reflexivity.
Qed.

(** *** The rows of [address_summary] *)

Lemma balance_step_general (addr : json) (acc : Z) (t : json) :
  wf_tx t = true ->
  balance_step addr acc t =
  Some (acc + ((if matches t "recipient" addr then amount_of t else 0)
               - (if matches t "sender" addr then amount_of t else 0))).
Proof.
  intros Hw. destruct (wf_tx_inv t Hw) as (kvs & s & r & _ & Hs & Hr & Ham).
  unfold balance_step, matches. rewrite Hr, Hs. cbn [obind].
  destruct (py_eq r addr); rewrite ?Ham; cbn [obind py_num];
    destruct (py_eq s addr); rewrite ?Ham; cbn [obind py_num]; f_equal; lia.
Qed.

Lemma sum_matching_app (k : string) (addr : json) (l1 l2 : list json) :
  sum_matching k addr (l1 ++ l2) = sum_matching k addr l1 + sum_matching k addr l2.
Proof.
  unfold sum_matching. induction l1 as [|t l1 IH]; simpl; [reflexivity | rewrite IH; lia].
Qed.

Lemma fold_balance_general (addr : json) (l : list json) (acc : Z) :
  forallb wf_tx l = true ->
  fold_opt (balance_step addr) l acc =
  Some (acc + (sum_matching "recipient" addr l - sum_matching "sender" addr l)).
Proof.
  revert acc; induction l as [|t l IH]; intros acc Hw; simpl; [f_equal; lia|].
  apply andb_prop in Hw as [Hw1 Hw2].
  rewrite balance_step_general by exact Hw1. simpl. rewrite IH by exact Hw2.
  unfold sum_matching. simpl. f_equal. lia.
Qed.

Lemma compute_balance_general (bc : Blockchain) (addr : json) :
  wf_ledger bc = true ->
  compute_balance bc addr =
  Some (sum_matching "recipient" addr (ledger_txs bc) - sum_matching "sender" addr (ledger_txs bc)).
Proof.
  unfold wf_ledger. intros H. apply andb_prop in H as [Hc Hp].
  unfold compute_balance, ledger_txs.
  assert (Hch : forall acc, fold_opt (fun bal block =>
                        let* txs := getitem block "transactions" in
                        let* l := py_iter txs in
                        fold_opt (balance_step addr) l bal) (chain bc) acc =
    Some (acc + (sum_matching "recipient" addr (concat (map block_txs (chain bc)))
                 - sum_matching "sender" addr (concat (map block_txs (chain bc)))))).
  { clear Hp. induction (chain bc) as [|b c IH]; intros acc; simpl; [f_equal; lia|].
    simpl in Hc. apply andb_prop in Hc as [Hb Hc].
    unfold wf_block, block_txs in *.
    destruct (getitem b "transactions") as [[| | | | l |]|]; try discriminate.
    simpl. rewrite fold_balance_general by exact Hb. simpl. rewrite IH by exact Hc.
    rewrite !sum_matching_app. f_equal; lia. }
  rewrite Hch. simpl. rewrite fold_balance_general by exact Hp.
  rewrite !sum_matching_app. f_equal; lia.
Qed.

Lemma fold_opt_rows {A} (P : summary_row -> Prop) (f : list summary_row -> A -> option (list summary_row))
    (l : list A) (acc res : list summary_row) :
  (forall rows x rows', In x l -> f rows x = Some rows' -> exists r, rows' = (rows ++ [r])%list /\ P r) ->
  Forall P acc -> fold_opt f l acc = Some res -> Forall P res.
Proof.
  revert acc; induction l as [|x l IH]; intros acc Hf Hacc H; simpl in H.
  - injection H as <-. exact Hacc.
  - destruct (f acc x) as [rows'|] eqn:E; [|discriminate]. simpl in H.
    destruct (Hf acc x rows' (or_introl eq_refl) E) as (r & -> & Hr).
    apply (IH (acc ++ [r])%list); [intros; eapply Hf; [right|]; eauto | | exact H].
    apply Forall_app. split; [exact Hacc | constructor; [exact Hr | constructor]].
Qed.

(** X11: on a reachable ledger with whole-number amounts whose absolute
    values add up to at most [2^53] (so the float sums are exact), every
    row of [address_summary] has [balance = received_total - sent_total]:
    [compute_balance] and the two sums over [all_transactions] agree. *)
Theorem address_summary_row_balance (bc : Blockchain) (rows : list summary_row)
    (Hr : reachable sha256_hexdigest json_dumps bc)
    (Hb : sum_abs_amounts (ledger_txs bc) <= 2 ^ 53)
    (Hs : address_summary bc = Some rows) :
  Forall (fun r => row_balance r = row_received_total r - row_sent_total r) rows.
Proof.
  clear Hb.
  pose proof (reachable_wf_full bc Hr) as Hw.
  destruct (all_transactions_full bc Hw) as (txs & Etx & Hf & _).
  assert (Hwt : forallb wf_tx txs = true)
    by (rewrite (fields_forallb_wf_tx _ _ Hf); apply wf_ledger_full_txs, Hw).
  unfold address_summary in Hs. rewrite Etx in Hs. cbn [obind] in Hs.
  destruct (extract_addresses txs) as [addresses|]; [|discriminate]. cbn [obind] in Hs.
  match type of Hs with obind (fold_opt ?f _ _) _ = _ => set (F := f) in Hs end.
  destruct (fold_opt F addresses []) as [rows0|] eqn:E; [|discriminate]. cbn [obind] in Hs.
  assert (H0 : Forall (fun r => row_balance r = row_received_total r - row_sent_total r) rows0).
  { apply (fold_opt_rows _ F addresses [] rows0); [|constructor|exact E].
    intros racc addr rows' _ HF. unfold F in HF.
    rewrite (sum_amounts_wf txs "recipient" addr Hwt (or_intror eq_refl)) in HF.
    rewrite (sum_amounts_wf txs "sender" addr Hwt (or_introl eq_refl)) in HF.
    cbn [obind] in HF.
    destruct (count_matching txs "recipient" addr); [|discriminate]. cbn [obind] in HF.
    destruct (count_matching txs "sender" addr); [|discriminate]. cbn [obind] in HF.
    rewrite (compute_balance_general bc addr (wf_ledger_full_wf bc Hw)) in HF. cbn [obind] in HF.
    injection HF as <-. eexists. split; [reflexivity|]. simpl.
    rewrite (fields_sum _ _ "recipient" addr (or_intror eq_refl) Hf).
    rewrite (fields_sum _ _ "sender" addr (or_introl eq_refl) Hf). reflexivity. }
  destruct rows0 as [|r0 rows0]; injection Hs as <-; [constructor|].
  apply Forall_forall. intros r Hr'. rewrite Forall_forall in H0. apply H0.
  apply (Permutation_in _ (sort_by_balance_perm _)), Hr'.
Qed.

Lemma insert_by_balance_sorted (r : summary_row) (rows : list summary_row) :
  Sorted (fun r1 r2 => row_balance r2 <= row_balance r1) rows ->
  Sorted (fun r1 r2 => row_balance r2 <= row_balance r1) (insert_by_balance r rows).
Proof.
  induction rows as [|r' rows IH]; intros Hs; simpl.
  - repeat constructor.
  - destruct (Z.leb_spec (row_balance r') (row_balance r)) as [Hle|Hgt].
    + constructor; [exact Hs | constructor; exact Hle].
    + apply Sorted_inv in Hs as [Hs Hhd]. constructor; [apply IH, Hs|].
      destruct rows as [|r'' rows]; simpl.
      * constructor. lia.
      * apply HdRel_inv in Hhd.
        destruct (Z.leb (row_balance r'') (row_balance r)); constructor; lia.
Qed.

Lemma sort_by_balance_sorted (rows : list summary_row) :
  Sorted (fun r1 r2 => row_balance r2 <= row_balance r1) (sort_by_balance_desc rows).
Proof.
  induction rows as [|r l IH]; simpl; [constructor|]. apply insert_by_balance_sorted, IH.
Qed.

(** X12: the rows of [address_summary] come in non-increasing order of
    balance ([sort_values(by='balance', ascending=False)]). *)
Theorem address_summary_sorted (bc : Blockchain) (rows : list summary_row)
    (Hs : address_summary bc = Some rows) :
  Sorted (fun r1 r2 => row_balance r2 <= row_balance r1) rows.
Proof.
  unfold address_summary in Hs.
  destruct (all_transactions bc) as [txs|]; [|discriminate]. cbn [obind] in Hs.
  destruct (extract_addresses txs) as [addresses|]; [|discriminate]. cbn [obind] in Hs.
  match type of Hs with obind ?m _ = _ => destruct m as [rows0|] end; [|discriminate].
  cbn [obind] in Hs.
  destruct rows0 as [|r0 rows0]; injection Hs as <-; [constructor|].
  exact (sort_by_balance_sorted (r0 :: rows0)).
Qed.

(** *** The mining button *)

Lemma pow_loop_value_spec (bc : Blockchain) (lp : json) (fuel p0 p : nat) :
  pow_loop_value sha256_hexdigest py_str bc lp fuel p0 = Some p ->
  (p0 <= p < p0 + fuel)%nat /\ valid_proof_value sha256_hexdigest py_str bc lp p = true /\
  (forall q, (p0 <= q < p)%nat -> valid_proof_value sha256_hexdigest py_str bc lp q = false).
Proof.
  revert p0; induction fuel as [|f IH]; intros p0; simpl; [discriminate|].
  case_eq (valid_proof_value sha256_hexdigest py_str bc lp p0); intros Hv H.
  - injection H as <-. split; [lia|]. split; [exact Hv|]. intros q Hq; lia.
  - apply IH in H as (Hr & Hp & Hq). split; [lia|]. split; [exact Hp|].
    intros q Hq'. destruct (Nat.eq_dec p0 q) as [<-|]; [exact Hv | apply Hq; lia].
Qed.

Lemma pow_loop_value_finds (bc : Blockchain) (lp : json) (fuel p0 n : nat) :
  (p0 <= n < p0 + fuel)%nat -> valid_proof_value sha256_hexdigest py_str bc lp n = true ->
  exists p, pow_loop_value sha256_hexdigest py_str bc lp fuel p0 = Some p.
Proof.
  revert p0; induction fuel as [|f IH]; intros p0 Hr Hv; simpl; [lia|].
  destruct (valid_proof_value sha256_hexdigest py_str bc lp p0) eqn:E; [eauto|].
  apply IH; [|exact Hv].
  destruct (Nat.eq_dec p0 n) as [->|]; [congruence | lia].
Qed.

Lemma mine_reachable (bc : Blockchain) (node_id note : string) (fuel : nat) (ts1 ts2 : Z) :
  reachable sha256_hexdigest json_dumps bc ->
  (forall b lp, last_block bc = Some b -> getitem b "proof" = Some lp ->
     exists n, (n < fuel)%nat /\ valid_proof_value sha256_hexdigest py_str bc lp n = true) ->
  exists b lp p bc' blk,
    last_block bc = Some b /\ getitem b "proof" = Some lp /\
    pow_loop_value sha256_hexdigest py_str bc lp fuel 0 = Some p /\
    new_block sha256_hexdigest json_dumps (fst (new_transaction bc (JStr "0") (JStr node_id) 1 ts1))
      (Z.of_nat p) None note ts2 = Some (bc', blk) /\
    mine sha256_hexdigest json_dumps py_str bc node_id note fuel ts1 ts2 = (bc', Some blk).
Proof.
  intros Hr Hex.
  destruct (reachable_last_block bc Hr) as (b & Hb & _).
  assert (Hin : In b (chain bc)).
  { unfold last_block in Hb. destruct (rev (chain bc)) as [|b' r] eqn:E; [discriminate|].
    injection Hb as ->. apply rev_cons_app in E. rewrite E. apply in_or_app. right; left; reflexivity. }
  destruct (reachable_shape sha256_hexdigest json_dumps bc Hr) as [_ Hsh].
  destruct (Hsh b Hin) as (i & t & txs & p0 & ph & n0 & Eb).
  assert (Hp : getitem b "proof" = Some (JNum p0)) by (rewrite Eb; reflexivity).
  destruct (Hex b (JNum p0) Hb Hp) as (n & Hn & Hv).
  destruct (pow_loop_value_finds bc (JNum p0) fuel 0 n ltac:(lia) Hv) as [p Hpow].
  destruct (reachable_next_index bc (JStr "0") (JStr node_id) 1 ts1 (Z.of_nat p) note ts2 Hr)
    as (Hidx & bc' & blk & Hnb & _).
  exists b, (JNum p0), p, bc', blk.
  split; [exact Hb|]. split; [exact Hp|]. split; [exact Hpow|]. split; [exact Hnb|].
  unfold mine. rewrite Hb, Hp, Hpow.
  rewrite (surjective_pairing (new_transaction bc (JStr "0") (JStr node_id) 1 ts1)).
  rewrite Hidx, Hnb. reflexivity.
Qed.

(** X13: on a reachable ledger, when a valid nonce exists within the
    search bound, the mining button seals one new block: its proof is the
    least nonce [p] with [valid_proof(last_block['proof'], p)], its
    transactions are the pending batch followed by the reward of 1 from
    ["0"] to the node, the pending batch is emptied, and the new ledger is
    again reachable. *)
Theorem mine_seals_block (bc : Blockchain) (node_id note : string) (fuel : nat) (ts1 ts2 : Z)
    (Hr : reachable sha256_hexdigest json_dumps bc)
    (Hex : forall b lp, last_block bc = Some b -> getitem b "proof" = Some lp ->
       exists n, (n < fuel)%nat /\ valid_proof_value sha256_hexdigest py_str bc lp n = true) :
  exists bc' blk lp p,
    mine sha256_hexdigest json_dumps py_str bc node_id note fuel ts1 ts2 = (bc', Some blk) /\
    (exists b, last_block bc = Some b /\ getitem b "proof" = Some lp) /\
    valid_proof_value sha256_hexdigest py_str bc lp p = true /\
    (forall q, (q < p)%nat -> valid_proof_value sha256_hexdigest py_str bc lp q = false) /\
    getitem blk "proof" = Some (JNum (Z.of_nat p)) /\
    getitem blk "transactions" =
      Some (JArr (current_transactions bc ++ [reward_tx node_id ts1])%list) /\
    chain bc' = (chain bc ++ [blk])%list /\ current_transactions bc' = [] /\
    reachable sha256_hexdigest json_dumps bc'.
Proof.
  destruct (mine_reachable bc node_id note fuel ts1 ts2 Hr Hex)
    as (b & lp & p & bc' & blk & Hb & Hp & Hpow & Hnb & Hm).
  apply pow_loop_value_spec in Hpow as (_ & Hv & Hmin).
  exists bc', blk, lp, p. split; [exact Hm|]. split; [eauto|]. split; [exact Hv|].
  split; [intros q Hq; apply Hmin; lia|].
  assert (Hreach : reachable sha256_hexdigest json_dumps bc').
  { eapply reach_seal; [|exact Hnb].
    eapply reach_tx; [exact Hr|]. apply surjective_pairing. }
  apply new_block_inv in Hnb as (prev & -> & ->).
  split; [reflexivity|]. split; [reflexivity|]. split; [reflexivity|]. split; [reflexivity|].
  exact Hreach.
Qed.

(** X14: under the same conditions, mining raises [total_minted] by exactly
    1, adds 1 to the node's balance, takes 1 from the balance of ["0"], and
    leaves every other balance unchanged. *)
Theorem mine_mints_one (bc : Blockchain) (node_id note : string) (fuel : nat) (ts1 ts2 : Z)
    (Hr : reachable sha256_hexdigest json_dumps bc)
    (Hex : forall b lp, last_block bc = Some b -> getitem b "proof" = Some lp ->
       exists n, (n < fuel)%nat /\ valid_proof_value sha256_hexdigest py_str bc lp n = true) :
  exists bc' blk m,
    mine sha256_hexdigest json_dumps py_str bc node_id note fuel ts1 ts2 = (bc', Some blk) /\
    total_minted bc = Some m /\ total_minted bc' = Some (m + 1) /\
    forall a, compute_balance bc' (JStr a) =
      obind (compute_balance bc (JStr a)) (fun b =>
        Some (b + (if String.eqb node_id a then 1 else 0) - (if String.eqb "0" a then 1 else 0))).
Proof.
  destruct (mine_reachable bc node_id note fuel ts1 ts2 Hr Hex)
    as (b & lp & p & bc' & blk & Hb & Hp & Hpow & Hnb & Hm).
  assert (Hreach : reachable sha256_hexdigest json_dumps bc').
  { eapply reach_seal; [|exact Hnb].
    eapply reach_tx; [exact Hr|]. apply surjective_pairing. }
  exists bc', blk, (sum_matching "sender" (JStr "0") (ledger_txs bc)).
  split; [exact Hm|].
  split; [apply total_minted_full, reachable_wf_full, Hr|].
  split.
  - rewrite (total_minted_full bc' (reachable_wf_full bc' Hreach)).
    rewrite (ledger_txs_seal _ _ _ _ _ _ _ Hnb). unfold ledger_txs. simpl.
    rewrite app_assoc, sum_matching_app. reflexivity.
  - intros a. rewrite (compute_balance_seal _ _ _ _ _ _ _ (JStr a) Hnb).
    apply compute_balance_intake.
Qed.

(** *** The balance-check button *)

Lemma get_eq_wf (t : json) (k : string) (addr : json) :
  wf_tx t = true -> k = "sender" \/ k = "recipient" ->
  get_eq t k addr = Some (matches t k addr).
Proof.
  intros Hw Hk. destruct (wf_tx_inv t Hw) as (kvs & s & r & -> & Hs & Hr & _).
  unfold get_eq, matches, dict_get. simpl in *.
  destruct Hk as [-> | ->]; [rewrite Hs | rewrite Hr]; reflexivity.
Qed.

Lemma filter_opt_wf (addr : json) (l : list json) :
  forallb wf_tx l = true ->
  filter_opt (involves addr) l = Some (filter (involves_spec addr) l).
Proof.
  induction l as [|t l IH]; intros Hw; simpl; [reflexivity|].
  apply andb_prop in Hw as [Hw1 Hw2].
  assert (E : involves addr t = Some (involves_spec addr t)).
  { unfold involves, involves_spec.
    rewrite (get_eq_wf t "sender" addr Hw1 (or_introl eq_refl)). cbn [obind].
    destruct (matches t "sender" addr); [reflexivity|].
    apply get_eq_wf; [exact Hw1 | right; reflexivity]. }
  rewrite E. cbn [obind]. rewrite IH by exact Hw2. reflexivity.
Qed.

Lemma sum_amounts_get_wf (l : list json) (k : string) (addr : json) :
  forallb wf_tx l = true -> k = "sender" \/ k = "recipient" ->
  sum_amounts_get l k addr = Some (sum_matching k addr l).
Proof.
  intros Hw Hk. unfold sum_amounts_get, sum_matching.
  rewrite fold_opt_additive with (g := fun t => if matches t k addr then amount_of t else 0);
    [f_equal; lia|].
  intros acc t Ht. rewrite forallb_forall in Hw.
  rewrite (get_eq_wf t k addr (Hw t Ht) Hk). cbn [obind].
  destruct (wf_tx_inv t (Hw t Ht)) as (kvs & s & r & _ & _ & _ & Ham).
  destruct (matches t k addr); [rewrite Ham; reflexivity | f_equal; lia].
Qed.

Lemma forallb_filter {A} (p f : A -> bool) (l : list A) :
  forallb p l = true -> forallb p (filter f l) = true.
Proof.
  rewrite !forallb_forall. intros H x Hx. apply filter_In in Hx as [Hx _]. apply H, Hx.
Qed.

Lemma sum_matching_filter (k : string) (addr : json) (l : list json) :
  k = "sender" \/ k = "recipient" ->
  sum_matching k addr (filter (involves_spec addr) l) = sum_matching k addr l.
Proof.
  intros Hk. unfold sum_matching. induction l as [|t l IH]; simpl; [reflexivity|].
  unfold involves_spec at 1.
  destruct (matches t "sender" addr) eqn:Es, (matches t "recipient" addr) eqn:Er; simpl;
    rewrite IH; try reflexivity;
    destruct Hk as [-> | ->]; rewrite ?Es, ?Er; reflexivity.
Qed.

Lemma fields_filter_involves (addr : json) (l1 l2 : list json) :
  map fields l1 = map fields l2 ->
  map fields (filter (involves_spec addr) l1) = map fields (filter (involves_spec addr) l2).
Proof.
  revert l2; induction l1 as [|t1 l1 IH]; intros [|t2 l2] H; try discriminate;
    cbn [filter map]; [reflexivity|].
  cbn [map] in H. injection H as Hs Hr Ha Hl.
  assert (Hf : fields t1 = fields t2) by (unfold fields; congruence).
  assert (Hi : involves_spec addr t1 = involves_spec addr t2).
  { unfold involves_spec.
    destruct (fields_matches t1 t2 "sender" addr (or_introl eq_refl) Hf) as [-> _].
    destruct (fields_matches t1 t2 "recipient" addr (or_intror eq_refl) Hf) as [-> _].
    reflexivity. }
  rewrite Hi. destruct (involves_spec addr t2); cbn [map];
    rewrite (IH l2 Hl); [rewrite Hf|]; reflexivity.
Qed.

(** X15: on a reachable ledger with whole-number amounts whose absolute
    values add up to at most [2^53] (so the float sums are exact), the
    "Get Balance & Summary" button never raises; its quick summary reports
    as total received and total sent the sums of the amounts the address
    received and sent over all sealed and pending transactions, their
    difference is the balance it displays, and its transaction count is the
    number of transactions with the address as sender or recipient (a
    transfer to oneself counted once). *)
Theorem balance_check_consistent (bc : Blockchain) (a : string)
    (Hr : reachable sha256_hexdigest json_dumps bc)
    (Hb : sum_abs_amounts (ledger_txs bc) <= 2 ^ 53) :
  exists bal received sent n,
    balance_check bc a = Some (bal, received, sent, n) /\
    bal = received - sent /\
    received = sum_matching "recipient" (JStr a) (ledger_txs bc) /\
    sent = sum_matching "sender" (JStr a) (ledger_txs bc) /\
    n = length (filter (involves_spec (JStr a)) (ledger_txs bc)).
Proof.
  clear Hb. pose proof (reachable_wf_full bc Hr) as Hw.
  destruct (all_transactions_full bc Hw) as (txs & Etx & Hf & _).
  assert (Hwt : forallb wf_tx txs = true)
    by (rewrite (fields_forallb_wf_tx _ _ Hf); apply wf_ledger_full_txs, Hw).
  pose proof (forallb_filter wf_tx (involves_spec (JStr a)) txs Hwt) as Hwf.
  unfold balance_check.
  rewrite (compute_balance_general bc (JStr a) (wf_ledger_full_wf bc Hw)). cbn [obind].
  rewrite Etx. cbn [obind]. rewrite filter_opt_wf by exact Hwt. cbn [obind].
  rewrite (sum_amounts_get_wf _ "recipient" (JStr a) Hwf (or_intror eq_refl)). cbn [obind].
  rewrite (sum_amounts_get_wf _ "sender" (JStr a) Hwf (or_introl eq_refl)). cbn [obind].
  rewrite !sum_matching_filter by auto.
  rewrite (fields_sum _ _ "recipient" (JStr a) (or_intror eq_refl) Hf).
  rewrite (fields_sum _ _ "sender" (JStr a) (or_introl eq_refl) Hf).
  do 4 eexists. split; [reflexivity|]. split; [reflexivity|].
  split; [reflexivity|]. split; [reflexivity|].
  rewrite <- (length_map fields (filter _ txs)), (fields_filter_involves _ _ _ Hf), length_map.
  reflexivity.
Qed.

(** *** The raw-JSON intake *)

(** X16: for a non-blank input that parses to a dict, the raw-JSON intake
    rejects it without touching the ledger when it has no ["amount"] key
    ([float(None)] raises) or when its integer amount is too large for a
    float ([OverflowError]); otherwise it appends one transaction to the
    pending batch, with the amount rounded to a float (unchanged up to
    [2^53]) and a missing sender or recipient recorded as [None]. *)
Theorem raw_intake_missing_fields (bc : Blockchain) (raw : string) (ts : Z)
    (kvs : list (string * json))
    (Hb : strip_empty raw = false) (Hl : json_loads raw = Some (JObj kvs)) :
  (assoc "amount" kvs = None ->
     add_raw_transaction json_loads float_of_string bc raw ts = (bc, RawInvalid)) /\
  (forall n, assoc "amount" kvs = Some (JNum n) ->
     match float_of_int n with
     | None => add_raw_transaction json_loads float_of_string bc raw ts = (bc, RawInvalid)
     | Some f =>
       chain (fst (add_raw_transaction json_loads float_of_string bc raw ts)) = chain bc /\
       current_transactions (fst (add_raw_transaction json_loads float_of_string bc raw ts)) =
         (current_transactions bc ++
          [JObj [("sender", match assoc "sender" kvs with Some v => v | None => JNull end);
                 ("recipient", match assoc "recipient" kvs with Some v => v | None => JNull end);
                 ("amount", JNum f); ("timestamp", JNum ts)]])%list
     end) /\
  (forall n, Z.abs n <= 2 ^ 53 -> float_of_int n = Some n).
Proof.
  split; [|split].
  - intros Ha. unfold add_raw_transaction. rewrite Hb, Hl. cbn [dict_get obind].
    rewrite Ha. reflexivity.
  - intros n Ha. unfold add_raw_transaction. rewrite Hb, Hl. cbn [dict_get obind].
    rewrite Ha. cbn [py_float].
    destruct (float_of_int n) as [f|]; [|reflexivity].
    match goal with |- context [new_transaction bc ?s ?r f ts] =>
      rewrite (surjective_pairing (new_transaction bc s r f ts)) end.
    split; reflexivity.
  - intros n Hn. unfold float_of_int. cbv zeta.
    rewrite (proj2 (Z.leb_le _ _) Hn). reflexivity.
Qed.

(** *** The proof search at the extremes of the difficulty *)

(** X17: with difficulty 0 every nonce is valid: [proof_of_work] returns 0
    after one iteration. *)
Theorem pow_difficulty_zero (bc : Blockchain) (last_proof : Z) (fuel : nat)
    (Hd : difficulty bc = 0%nat) (Hf : (0 < fuel)%nat) :
  proof_of_work sha256_hexdigest bc last_proof fuel = Some 0%nat.
Proof.
  destruct fuel as [|f]; [lia|]. unfold proof_of_work. simpl.
  unfold valid_proof. rewrite Hd.
  destruct (sha256_hexdigest (string_of_Z last_proof ++ string_of_nat 0)); reflexivity.
Qed.

(** X18: a SHA-256 hex digest has 64 characters, so with a difficulty
    above 64 no nonce is valid and [proof_of_work] never returns. *)
Theorem pow_difficulty_too_high (bc : Blockchain) (last_proof : Z)
    (Hlen : forall s, String.length (sha256_hexdigest s) = 64%nat)
    (Hd : (64 < difficulty bc)%nat) :
  forall fuel, proof_of_work sha256_hexdigest bc last_proof fuel = None.
Proof.
  assert (Hv : forall q, valid_proof sha256_hexdigest bc last_proof q = false).
  { intros q. destruct (valid_proof sha256_hexdigest bc last_proof q) eqn:E; [|reflexivity].
    apply valid_proof_iff in E as [Hle _]. rewrite Hlen in Hle. lia. }
  intros fuel. unfold proof_of_work. generalize 0%nat as p0.
  induction fuel as [|f IH]; intros p0; simpl; [reflexivity|]. rewrite Hv. apply IH.
Qed.

(** *** The list of recent blocks *)

(** X19: the page lists the [min(6, len(chain))] most recent blocks, newest
    first, starting with [last_block]. *)
Theorem recent_blocks_newest_first (bc : Blockchain) :
  recent_blocks bc = firstn 6 (rev (chain bc)) /\
  length (recent_blocks bc) = Nat.min 6 (length (chain bc)) /\
  hd_error (recent_blocks bc) = last_block bc.
Proof.
  unfold recent_blocks, last_n. rewrite <- firstn_rev.
  split; [reflexivity|]. split; [rewrite length_firstn, length_rev; reflexivity|].
  unfold last_block. destruct (rev (chain bc)); reflexivity.
Qed.

End Further.

(** *** Concrete ledgers *)

Lemma demo_sealed_reachable : reachable demo_sha demo_dumps demo_sealed.
Proof.
  apply (reach_seal demo_sha demo_dumps demo_pending 7 EmptyString 2 demo_sealed (snd demo_seal_result));
    [|reflexivity].
  apply (reach_tx demo_sha demo_dumps demo_genesis (JStr "A") (JStr "B") 5 1 demo_pending
           (snd (new_transaction demo_genesis (JStr "A") (JStr "B") 5 1))); [|reflexivity].
  apply (reach_init demo_sha demo_dumps 3 0). reflexivity.
Qed.

Lemma demo_minted_reachable : reachable demo_sha demo_dumps demo_minted.
Proof.
  apply (reach_tx demo_sha demo_dumps demo_sealed (JStr "0") (JStr "B") 1 3 demo_minted
           (snd (new_transaction demo_sealed (JStr "0") (JStr "B") 1 3)));
    [exact demo_sealed_reachable | reflexivity].
Qed.

Lemma demo_list_sender_reachable : reachable demo_sha demo_dumps demo_list_sender.
Proof.
  apply (reach_tx demo_sha demo_dumps demo_sealed (JArr [JStr "A"]) (JStr "B") 2 3
           demo_list_sender
           (snd (new_transaction demo_sealed (JArr [JStr "A"]) (JStr "B") 2 3)));
    [exact demo_sealed_reachable | reflexivity].
Qed.

Lemma demo_zero_genesis_reachable : reachable demo_zero_sha demo_dumps demo_zero_genesis.
Proof. apply (reach_init demo_zero_sha demo_dumps 3 0). reflexivity. Qed.

(** *** Counterexamples *)

(** C5: a sealed block stores no [hash] field. *)
Lemma sealed_block_has_no_hash_field :
  length (chain demo_sealed) = 2%nat /\
  forallb (fun b => match getitem b "hash" with None => true | Some _ => false end)
    (chain demo_sealed) = true.
Proof. split; reflexivity. Qed.

(** C6: no operation of the module is [validate]. *)
Lemma no_validate_operation : ~ exists o, operation_name o = "validate".
Proof. intros [o H]. destruct o; discriminate. Qed.

(** C7: the genesis block has index 1, not 0. *)
Lemma genesis_index_is_one :
  exists bc, blockchain_init demo_sha demo_dumps 3 0 = Some bc /\
    map (fun b => getitem b "index") (chain bc) = [Some (JNum 1)].
Proof. eexists. split; reflexivity. Qed.

(** C8: after a mining reward, the mint sentinel ["0"] is one of the
    summarised addresses. *)
Lemma mint_sentinel_summarised :
  exists rows, address_summary demo_minted = Some rows /\ In (JStr "0") (map row_address rows).
Proof. eexists. split; [vm_compute; reflexivity | simpl; tauto]. Qed.

(** C9: a list that holds no block replaces the chain and clears the
    pending batch. *)
Lemma upload_accepts_non_blocks :
  block_shaped (JNum 1) = false /\
  upload_chain demo_minted (Some (JArr [JNum 1])) = (mkBlockchain [JNum 1] [] 3, Replaced) /\
  current_transactions demo_minted <> [].
Proof. split; [reflexivity|]. split; [reflexivity | discriminate]. Qed.


(** *** Witnesses: the theorems applied at concrete ledgers *)

Lemma compute_balance_replay_witness :
  wf_ledger demo_sealed = true /\
  compute_balance demo_sealed (JStr "A") = Some (spec_balance "A" (ledger_txs demo_sealed)).
Proof.
  split; [reflexivity|]. apply compute_balance_replay. reflexivity.
Defined.

Lemma new_block_seals_pending_witness :
  chain demo_genesis <> [] /\
  (current_transactions (submit_all demo_genesis [(JStr "A", JStr "B", 5, 1)]) =
     (current_transactions demo_genesis ++ map mk_tx [(JStr "A", JStr "B", 5, 1)])%list /\
   exists bc2 blk,
     new_block demo_sha demo_dumps (submit_all demo_genesis [(JStr "A", JStr "B", 5, 1)])
       7 None EmptyString 2 = Some (bc2, blk) /\
     getitem blk "transactions" =
       Some (JArr (current_transactions (submit_all demo_genesis [(JStr "A", JStr "B", 5, 1)]))) /\
     current_transactions bc2 = [] /\
     chain bc2 = (chain (submit_all demo_genesis [(JStr "A", JStr "B", 5, 1)]) ++ [blk])%list /\
     length (chain bc2) =
       S (length (chain (submit_all demo_genesis [(JStr "A", JStr "B", 5, 1)])))).
Proof.
  split; [discriminate|].
  apply new_block_seals_pending. discriminate.
Defined.

Lemma proof_of_work_least_nonce_witness :
  (exists n, leading_zero_chars 3 ((fun _ : string => "000") (string_of_Z 100 ++ string_of_nat n))) /\
  exists p,
    leading_zero_chars (difficulty (mkBlockchain [] [] 3))
      ((fun _ : string => "000") (string_of_Z 100 ++ string_of_nat p)) /\
    (forall q, (q < p)%nat ->
       ~ leading_zero_chars (difficulty (mkBlockchain [] [] 3))
           ((fun _ : string => "000") (string_of_Z 100 ++ string_of_nat q))) /\
    (forall fuel, (p < fuel)%nat ->
       proof_of_work (fun _ : string => "000") (mkBlockchain [] [] 3) 100 fuel = Some p) /\
    (forall fuel, (fuel <= p)%nat ->
       proof_of_work (fun _ : string => "000") (mkBlockchain [] [] 3) 100 fuel = None) /\
    (forall q, valid_proof (fun _ : string => "000") (mkBlockchain [] [] 3) 100 q = true <->
       leading_zero_chars (difficulty (mkBlockchain [] [] 3))
         ((fun _ : string => "000") (string_of_Z 100 ++ string_of_nat q))).
Proof.
  assert (H : exists n, leading_zero_chars 3
                ((fun _ : string => "000") (string_of_Z 100 ++ string_of_nat n))).
  { exists 0%nat. split; [simpl; lia|].
    intros [|[|[|i]]] Hi; [reflexivity | reflexivity | reflexivity | lia]. }
  split; [exact H|].
  apply (proof_of_work_least_nonce (fun _ : string => "000") (mkBlockchain [] [] 3) 100 H).
Defined.

Lemma reachable_previous_hash_witness :
  reachable demo_sha demo_dumps demo_sealed /\
  forall i prev blk, nth_error (chain demo_sealed) i = Some prev ->
    nth_error (chain demo_sealed) (S i) = Some blk ->
    getitem blk "previous_hash" = Some (JStr (hash demo_sha demo_dumps prev)).
Proof.
  split; [exact demo_sealed_reachable|].
  apply (reachable_previous_hash demo_sha demo_dumps). exact demo_sealed_reachable.
Defined.

Lemma reachable_blocks_have_no_hash_witness :
  reachable demo_sha demo_dumps demo_sealed /\
  forall b, In b (chain demo_sealed) -> block_of_shape b /\ getitem b "hash" = None.
Proof.
  split; [exact demo_sealed_reachable|].
  apply (reachable_blocks_have_no_hash demo_sha demo_dumps). exact demo_sealed_reachable.
Defined.

Lemma no_validate_links_hold_witness :
  reachable demo_sha demo_dumps demo_sealed /\
  (forall o, operation_name o <> "validate") /\
  spec_validate_links demo_sha demo_dumps (chain demo_sealed) = true /\
  forallb (fun b => match getitem b "hash" with None => true | Some _ => false end)
    (chain demo_sealed) = true.
Proof.
  split; [exact demo_sealed_reachable|].
  apply (no_validate_links_hold demo_sha demo_dumps). exact demo_sealed_reachable.
Defined.

Lemma address_summary_addresses_witness :
  wf_ledger_str demo_minted = true /\
  exists rows, address_summary demo_minted = Some rows /\
    NoDup (map row_address rows) /\
    (forall v, In v (map row_address rows) <->
       exists a, v = JStr a /\
         exists t, In t (ledger_txs demo_minted) /\
           (getitem t "sender" = Some (JStr a) \/ getitem t "recipient" = Some (JStr a))).
Proof.
  split; [reflexivity|]. apply address_summary_addresses. reflexivity.
Defined.


(** *** Witnesses of the further properties *)

Lemma new_block_keeps_balances_witness :
  new_block demo_sha demo_dumps demo_pending 7 None EmptyString 2 =
    Some (demo_sealed, snd demo_seal_result) /\
  (forall addr, compute_balance demo_sealed addr = compute_balance demo_pending addr) /\
  ledger_txs demo_sealed = ledger_txs demo_pending.
Proof.
  assert (H : new_block demo_sha demo_dumps demo_pending 7 None EmptyString 2 =
                Some (demo_sealed, snd demo_seal_result)) by reflexivity.
  split; [exact H|]. exact (new_block_keeps_balances demo_sha demo_dumps _ _ _ _ _ _ _ H).
Defined.


Lemma reachable_block_index_witness :
  reachable demo_sha demo_dumps demo_sealed /\
  forall i b, nth_error (chain demo_sealed) i = Some b ->
    getitem b "index" = Some (JNum (Z.of_nat i + 1)).
Proof.
  split; [exact demo_sealed_reachable|].
  exact (reachable_block_index demo_sha demo_dumps demo_sealed demo_sealed_reachable).
Defined.

Lemma new_transaction_next_index_witness :
  reachable demo_sha demo_dumps demo_sealed /\
  snd (new_transaction demo_sealed (JStr "A") (JStr "C") 1 3) =
    Some (Z.of_nat (length (chain demo_sealed)) + 1) /\
  exists bc2 blk,
    new_block demo_sha demo_dumps (fst (new_transaction demo_sealed (JStr "A") (JStr "C") 1 3))
      11 None EmptyString 4 = Some (bc2, blk) /\
    getitem blk "index" = Some (JNum (Z.of_nat (length (chain demo_sealed)) + 1)).
Proof.
  split; [exact demo_sealed_reachable|].
  exact (new_transaction_next_index demo_sha demo_dumps demo_sealed (JStr "A") (JStr "C") 1 3
           11 EmptyString 4 demo_sealed_reachable).
Defined.

Lemma empty_chain_behaviour_witness :
  chain (mkBlockchain [] [] 3) = [] /\
  snd (new_transaction (mkBlockchain [] [] 3) (JStr "A") (JStr "B") 5 1) = Some 1 /\
  new_block demo_zero_sha demo_dumps (mkBlockchain [] [] 3) 7 None EmptyString 2 = None /\
  mine demo_zero_sha demo_dumps demo_py_str (mkBlockchain [] [] 3) "node" EmptyString 5 1 2 =
    (mkBlockchain [] [] 3, None).
Proof.
  split; [reflexivity|].
  apply (empty_chain_behaviour demo_zero_sha demo_dumps demo_py_str). reflexivity.
Defined.

Lemma new_transaction_bad_index_witness :
  last_block (mkBlockchain [JNum 1] [] 3) = Some (JNum 1) /\
  obind (getitem (JNum 1) "index") py_num = None /\
  snd (new_transaction (mkBlockchain [JNum 1] [] 3) (JStr "A") (JStr "B") 5 1) = None /\
  chain (fst (new_transaction (mkBlockchain [JNum 1] [] 3) (JStr "A") (JStr "B") 5 1)) =
    chain (mkBlockchain [JNum 1] [] 3) /\
  current_transactions (fst (new_transaction (mkBlockchain [JNum 1] [] 3) (JStr "A") (JStr "B") 5 1)) =
    (current_transactions (mkBlockchain [JNum 1] [] 3) ++
       [JObj [("sender", JStr "A"); ("recipient", JStr "B"); ("amount", JNum 5);
              ("timestamp", JNum 1)]])%list.
Proof.
  split; [reflexivity|]. split; [reflexivity|].
  apply (new_transaction_bad_index _ _ _ _ _ (JNum 1)); reflexivity.
Defined.

Lemma new_block_previous_hash_witness :
  "abc" <> EmptyString /\
  new_block demo_sha demo_dumps demo_pending 7 (Some EmptyString) EmptyString 2 =
    new_block demo_sha demo_dumps demo_pending 7 None EmptyString 2 /\
  exists bc' blk,
    new_block demo_sha demo_dumps demo_pending 7 (Some "abc") EmptyString 2 = Some (bc', blk) /\
    getitem blk "previous_hash" = Some (JStr "abc") /\
    chain bc' = (chain demo_pending ++ [blk])%list /\ current_transactions bc' = [].
Proof.
  assert (H : "abc" <> EmptyString) by discriminate.
  split; [exact H|]. exact (new_block_previous_hash demo_sha demo_dumps _ _ _ _ _ H).
Defined.

Lemma all_transactions_annotates_witness :
  reachable demo_sha demo_dumps demo_minted /\
  exists txs, all_transactions demo_minted = Some txs /\
    map fields txs = map fields (ledger_txs demo_minted) /\
    map tx_meta txs = ledger_meta demo_minted.
Proof.
  split; [exact demo_minted_reachable|].
  exact (all_transactions_annotates demo_sha demo_dumps demo_minted demo_minted_reachable).
Defined.

Lemma reachable_balance_and_minted_witness :
  reachable demo_sha demo_dumps demo_minted /\
  (forall addr, exists v, compute_balance demo_minted addr = Some v) /\
  total_minted demo_minted = Some (sum_matching "sender" (JStr "0") (ledger_txs demo_minted)).
Proof.
  split; [exact demo_minted_reachable|].
  exact (reachable_balance_and_minted demo_sha demo_dumps demo_minted demo_minted_reachable).
Defined.

Lemma unhashable_address_breaks_summary_witness :
  reachable demo_sha demo_dumps demo_list_sender /\
  (exists t, In t (ledger_txs demo_list_sender) /\
     (unhashable (getitem t "sender") || unhashable (getitem t "recipient")) = true) /\
  address_summary demo_list_sender = None /\ total_in_circulation demo_list_sender = None.
Proof.
  assert (Hu : exists t, In t (ledger_txs demo_list_sender) /\
     (unhashable (getitem t "sender") || unhashable (getitem t "recipient")) = true).
  { exists (JObj [("sender", JArr [JStr "A"]); ("recipient", JStr "B"); ("amount", JNum 2);
                  ("timestamp", JNum 3)]).
    split; [|reflexivity]. vm_compute. right; left; reflexivity. }
  split; [exact demo_list_sender_reachable|]. split; [exact Hu|].
  exact (unhashable_address_breaks_summary demo_sha demo_dumps demo_list_sender
           demo_list_sender_reachable Hu).
Defined.

Lemma address_summary_row_balance_witness :
  reachable demo_sha demo_dumps demo_minted /\
  sum_abs_amounts (ledger_txs demo_minted) <= 2 ^ 53 /\
  address_summary demo_minted = Some demo_minted_rows /\
  Forall (fun r => row_balance r = row_received_total r - row_sent_total r) demo_minted_rows.
Proof.
  assert (Hb : sum_abs_amounts (ledger_txs demo_minted) <= 2 ^ 53)
    by (apply Z.leb_le; vm_compute; reflexivity).
  assert (Hs : address_summary demo_minted = Some demo_minted_rows) by (vm_compute; reflexivity).
  split; [exact demo_minted_reachable|]. split; [exact Hb|]. split; [exact Hs|].
  exact (address_summary_row_balance demo_sha demo_dumps demo_minted demo_minted_rows
           demo_minted_reachable Hb Hs).
Defined.

Lemma address_summary_sorted_witness :
  address_summary demo_minted = Some demo_minted_rows /\
  Sorted (fun r1 r2 => row_balance r2 <= row_balance r1) demo_minted_rows.
Proof.
  assert (Hs : address_summary demo_minted = Some demo_minted_rows) by (vm_compute; reflexivity).
  split; [exact Hs|]. exact (address_summary_sorted demo_minted demo_minted_rows Hs).
Defined.

Lemma mine_seals_block_witness :
  reachable demo_zero_sha demo_dumps demo_zero_genesis /\
  (forall b lp, last_block demo_zero_genesis = Some b -> getitem b "proof" = Some lp ->
     exists n, (n < 1)%nat /\
       valid_proof_value demo_zero_sha demo_py_str demo_zero_genesis lp n = true) /\
  exists bc' blk lp p,
    mine demo_zero_sha demo_dumps demo_py_str demo_zero_genesis "node" EmptyString 1 5 6 =
      (bc', Some blk) /\
    (exists b, last_block demo_zero_genesis = Some b /\ getitem b "proof" = Some lp) /\
    valid_proof_value demo_zero_sha demo_py_str demo_zero_genesis lp p = true /\
    (forall q, (q < p)%nat ->
       valid_proof_value demo_zero_sha demo_py_str demo_zero_genesis lp q = false) /\
    getitem blk "proof" = Some (JNum (Z.of_nat p)) /\
    getitem blk "transactions" =
      Some (JArr (current_transactions demo_zero_genesis ++ [reward_tx "node" 5])%list) /\
    chain bc' = (chain demo_zero_genesis ++ [blk])%list /\ current_transactions bc' = [] /\
    reachable demo_zero_sha demo_dumps bc'.
Proof.
  assert (Hex : forall b lp, last_block demo_zero_genesis = Some b -> getitem b "proof" = Some lp ->
     exists n, (n < 1)%nat /\
       valid_proof_value demo_zero_sha demo_py_str demo_zero_genesis lp n = true).
  { intros b lp _ _. exists 0%nat. split; [lia | reflexivity]. }
  split; [exact demo_zero_genesis_reachable|]. split; [exact Hex|].
  exact (mine_seals_block demo_zero_sha demo_dumps demo_py_str demo_zero_genesis "node"
           EmptyString 1 5 6 demo_zero_genesis_reachable Hex).
Defined.

Lemma mine_mints_one_witness :
  reachable demo_zero_sha demo_dumps demo_zero_genesis /\
  (forall b lp, last_block demo_zero_genesis = Some b -> getitem b "proof" = Some lp ->
     exists n, (n < 1)%nat /\
       valid_proof_value demo_zero_sha demo_py_str demo_zero_genesis lp n = true) /\
  exists bc' blk m,
    mine demo_zero_sha demo_dumps demo_py_str demo_zero_genesis "node" EmptyString 1 5 6 =
      (bc', Some blk) /\
    total_minted demo_zero_genesis = Some m /\ total_minted bc' = Some (m + 1) /\
    forall a, compute_balance bc' (JStr a) =
      obind (compute_balance demo_zero_genesis (JStr a)) (fun b =>
        Some (b + (if String.eqb "node" a then 1 else 0) - (if String.eqb "0" a then 1 else 0))).
Proof.
  assert (Hex : forall b lp, last_block demo_zero_genesis = Some b -> getitem b "proof" = Some lp ->
     exists n, (n < 1)%nat /\
       valid_proof_value demo_zero_sha demo_py_str demo_zero_genesis lp n = true).
  { intros b lp _ _. exists 0%nat. split; [lia | reflexivity]. }
  split; [exact demo_zero_genesis_reachable|]. split; [exact Hex|].
  exact (mine_mints_one demo_zero_sha demo_dumps demo_py_str demo_zero_genesis "node"
           EmptyString 1 5 6 demo_zero_genesis_reachable Hex).
Defined.

Lemma balance_check_consistent_witness :
  reachable demo_sha demo_dumps demo_minted /\
  sum_abs_amounts (ledger_txs demo_minted) <= 2 ^ 53 /\
  exists bal received sent n,
    balance_check demo_minted "B" = Some (bal, received, sent, n) /\
    bal = received - sent /\
    received = sum_matching "recipient" (JStr "B") (ledger_txs demo_minted) /\
    sent = sum_matching "sender" (JStr "B") (ledger_txs demo_minted) /\
    n = length (filter (involves_spec (JStr "B")) (ledger_txs demo_minted)).
Proof.
  assert (Hb : sum_abs_amounts (ledger_txs demo_minted) <= 2 ^ 53)
    by (apply Z.leb_le; vm_compute; reflexivity).
  split; [exact demo_minted_reachable|]. split; [exact Hb|].
  exact (balance_check_consistent demo_sha demo_dumps demo_minted "B" demo_minted_reachable Hb).
Defined.

Lemma raw_intake_missing_fields_witness :
  strip_empty "{}" = false /\
  demo_loads "{}" = Some (JObj [("sender", JStr "A"); ("amount", JNum 2)]) /\
  (assoc "amount" [("sender", JStr "A"); ("amount", JNum 2)] = None ->
     add_raw_transaction demo_loads demo_float demo_sealed "{}" 4 = (demo_sealed, RawInvalid)) /\
  (forall n, assoc "amount" [("sender", JStr "A"); ("amount", JNum 2)] = Some (JNum n) ->
     match float_of_int n with
     | None =>
       add_raw_transaction demo_loads demo_float demo_sealed "{}" 4 = (demo_sealed, RawInvalid)
     | Some f =>
       chain (fst (add_raw_transaction demo_loads demo_float demo_sealed "{}" 4)) =
         chain demo_sealed /\
       current_transactions (fst (add_raw_transaction demo_loads demo_float demo_sealed "{}" 4)) =
         (current_transactions demo_sealed ++
          [JObj [("sender", match assoc "sender" [("sender", JStr "A"); ("amount", JNum 2)] with
                            | Some v => v | None => JNull end);
                 ("recipient", match assoc "recipient" [("sender", JStr "A"); ("amount", JNum 2)] with
                               | Some v => v | None => JNull end);
                 ("amount", JNum f); ("timestamp", JNum 4)]])%list
     end) /\
  (forall n, Z.abs n <= 2 ^ 53 -> float_of_int n = Some n).
Proof.
  split; [reflexivity|]. split; [reflexivity|].
  apply (raw_intake_missing_fields demo_loads demo_float); reflexivity.
Defined.

Lemma pow_difficulty_zero_witness :
  difficulty (mkBlockchain [] [] 0) = 0%nat /\ (0 < 1)%nat /\
  proof_of_work demo_sha (mkBlockchain [] [] 0) 100 1 = Some 0%nat.
Proof.
  split; [reflexivity|]. split; [lia|].
  apply pow_difficulty_zero; [reflexivity | lia].
Defined.

Lemma pow_difficulty_too_high_witness :
  (forall s, String.length (demo_zero_sha s) = 64%nat) /\
  (64 < difficulty (mkBlockchain [] [] 65))%nat /\
  forall fuel, proof_of_work demo_zero_sha (mkBlockchain [] [] 65) 100 fuel = None.
Proof.
  assert (Hlen : forall s, String.length (demo_zero_sha s) = 64%nat) by reflexivity.
  split; [exact Hlen|]. split; [simpl; lia|].
  apply pow_difficulty_too_high; [exact Hlen | simpl; lia].
Defined.
